(** * Volunteer Connect: session store and organization dashboard

    A shallow embedding of [src/pages/OrganizationDashboard.tsx] and of
    the authentication context ([AuthProvider], [signUp], [signIn],
    [signOut]) together with the properties the specification states
    about them.

    Conventions of the embedding:
    - a JavaScript number that holds a count or a time value is a [Z];
    - [undefined]/[null] data of a query ([events], [registrations]) is
      [None];
    - asynchronous functions are written in a small state-and-exception
      monad whose state records, in order, every call made on an external
      collaborator (identity provider, router, toasts, console). *)

From Stdlib Require Import ZArith List String Bool Lia.
From stdpp Require Import base option list strings gmap.
Import ListNotations.

(** ** JavaScript values *)

Module Js.

(** A property that holds a string, [null], or is absent. *)
Inductive value : Type :=
| VUndefined
| VNull
| VStr (s : string).

(** [Boolean(s)] for a string: only the empty string is falsy. *)
Definition truthy_string (s : string) : bool := negb (String.eqb s "").

(** [x || 0] where [x] is a number, [null] or [undefined]: the falsy
    cases ([None] and [0]) all give [0]. *)
Definition or_zero (x : option Z) : Z :=
  match x with
  | Some n => if (n =? 0)%Z then 0%Z else n
  | None => 0%Z
  end.

(** [xs.length] as a JavaScript number. *)
Definition len {A : Type} (xs : list A) : Z := Z.of_nat (List.length xs).

End Js.

(** ** date-fns *)

Module DateFns.

(** The time value of a [Date] in milliseconds; [None] is the
    [Invalid Date], whose time value is [NaN]. *)
Definition Date : Type := option Z.

(** [isPast(date)] is [+toDate(date) < Date.now()]; every comparison
    with [NaN] is false.  [now] is the reading of [Date.now()]. *)
Definition isPast (now : Z) (date : Date) : bool :=
  match date with
  | Some t => (t <? now)%Z
  | None => false
  end.

End DateFns.

(** ** Rows of the relational store *)

Record Event : Type := mkEvent {
  ev_id : string;
  ev_organization_id : string;
  ev_title : string;
  (** [new Date(event.date)], kept by its time value *)
  ev_date : DateFns.Date;
  ev_location : string;
  ev_volunteers_needed : Z;
  (** [null] in the row is [None] *)
  ev_current_volunteers : option Z
}.

Record Profile : Type := mkProfile {
  pr_full_name : option string;
  pr_phone : option string;
  pr_profile_image_url : option string
}.

(** A row of the first registrations query: the columns of its
    [select]. *)
Record RegistrationRow : Type := mkRow {
  row_id : string;
  row_event_id : string;
  row_user_id : option string;
  row_registration_time : string;
  row_emergency_contact : option string;
  row_dietary_restrictions : option string;
  row_notes : option string;
  row_profiles : option Profile
}.

(** What the registrations query hands to the view: the row, and the
    [user_email] property the enrichment adds. *)
Record Registration : Type := mkReg {
  reg_row : RegistrationRow;
  reg_user_email : Js.value
}.

(** A fetched row as it is, with no [user_email] property. *)
Definition plain (r : RegistrationRow) : Registration :=
  {| reg_row := r; reg_user_email := Js.VUndefined |}.

Definition reg_event_id (r : Registration) : string := row_event_id (reg_row r).

(** ** Aggregation over the cached collections *)

Module Aggregation.
Import Js DateFns.

Record Stats : Type := mkStats {
  totalEvents : Z;
  activeEvents : Z;
  totalVolunteers : Z;
  completedEvents : Z
}.

(** The [stats] object of the dashboard.  [events] is the [data] of
    the events query.  Every [isPast] of one evaluation reads the
    clock; [now] is that reading, taken to be the same for all of them
    (one evaluation time). *)
Definition stats (now : Z) (events : option (list Event)) : Stats :=
  {| totalEvents := or_zero (len <$> events);
     activeEvents :=
       or_zero ((fun es =>
         len (List.filter (fun event => negb (isPast now (ev_date event))) es))
         <$> events);
     totalVolunteers :=
       or_zero ((fun es =>
         fold_left (fun acc event =>
           (acc + or_zero (ev_current_volunteers event))%Z) es 0%Z)
         <$> events);
     completedEvents :=
       or_zero ((fun es =>
         len (List.filter (fun event => isPast now (ev_date event)) es))
         <$> events) |}.

(** [registrations?.filter(reg => reg.event_id === eventId) || []]:
    an array, even an empty one, is truthy. *)
Definition getEventRegistrations
    (registrations : option (list Registration)) (eventId : string)
    : list Registration :=
  match registrations with
  | Some regs => List.filter (fun reg => String.eqb (reg_event_id reg) eventId) regs
  | None => []
  end.

End Aggregation.

(** ** Effects: state threaded through calls, and [throw]/[catch] *)

Module Eff.

(** What the code throws: the [error] of a backend response, or a
    [new Error(message)]. *)
Inductive Exn : Type :=
| AuthApiError (message : string)
| PostgrestError (message : string)
| JsError (message : string).

Definition message (e : Exn) : string :=
  match e with
  | AuthApiError m | PostgrestError m | JsError m => m
  end.

Inductive result (A : Type) : Type :=
| Ok (a : A)
| Thrown (e : Exn).
Arguments Ok {A} a.
Arguments Thrown {A} e.

(** A computation over a state [S] that returns or throws. *)
Definition M (S A : Type) : Type := S -> result A * S.

Definition ret {S A} (a : A) : M S A := fun s => (Ok a, s).

Definition bind {S A B} (m : M S A) (k : A -> M S B) : M S B :=
  fun s =>
    match m s with
    | (Ok a, s') => k a s'
    | (Thrown e, s') => (Thrown e, s')
    end.

Definition throw {S A} (e : Exn) : M S A := fun s => (Thrown e, s).

(** [try { body } catch (error) { handler(error) }]: the state reached
    when the exception was thrown is kept. *)
Definition try_catch {S A} (body : M S A) (handler : Exn -> M S A) : M S A :=
  fun s =>
    match body s with
    | (Ok a, s') => (Ok a, s')
    | (Thrown e, s') => handler e s'
    end.

Definition modify {S} (f : S -> S) : M S unit := fun s => (Ok tt, f s).

(** The state a computation leaves behind. *)
Definition exec {S A} (m : M S A) (s : S) : S := snd (m s).

(** The monad structure, so that stdpp's [x ← m; k] and [m ;; k]
    sequence computations. *)
#[export] Instance M_ret {S} : MRet (M S) := fun A => @ret S A.
#[export] Instance M_bind {S} : MBind (M S) := fun A B k m => @bind S A B m k.

End Eff.

(** The authenticated user as the client holds it. *)
Record User : Type := mkUser {
  user_id : string
}.

(** ** The query cache *)

Module QueryCache.

(** A query key is an array; the keys of this view are
    [[kind, user?.id]], whose second element is [undefined] ([None])
    while nobody is logged in. *)
Definition QueryKey : Type := list (option string).

Definition events_key (uid : option string) : QueryKey :=
  [Some "organization-events"; uid].

Definition registrations_key (uid : option string) : QueryKey :=
  [Some "organization-registrations"; uid].

Inductive QueryData : Type :=
| EventsData (events : list Event)
| RegistrationsData (registrations : list Registration).

(** A cache entry: the last data fetched, and whether it was marked
    as to be fetched again. *)
Record Query : Type := mkQuery {
  q_data : option QueryData;
  q_isInvalidated : bool
}.

Definition invalidate (q : Query) : Query :=
  {| q_data := q_data q; q_isInvalidated := true |}.

(** Keys are matched partially: the filter key has to be a prefix of
    the query's key. *)
Fixpoint key_matches (filter key : QueryKey) : bool :=
  match filter, key with
  | [], _ => true
  | f :: filter', k :: key' => bool_decide (f = k) && key_matches filter' key'
  | _ :: _, [] => false
  end.

(** [queryClient.invalidateQueries({ queryKey })]. *)
Definition invalidateQueries (queryKey : QueryKey)
    (queries : gmap (list (option string)) Query)
    : gmap (list (option string)) Query :=
  map_imap (fun key q =>
    Some (if key_matches queryKey key then invalidate q else q)) queries.

(** What an observer of a query holds: no data while the query is
    disabled, still pending, or failed without an earlier success;
    otherwise the data of the last success. *)
Inductive Observed (A : Type) : Type :=
| Disabled
| Pending
| Failed (error : Eff.Exn)
| Success (data : A).
Arguments Disabled {A}.
Arguments Pending {A}.
Arguments Failed {A} error.
Arguments Success {A} data.

(** The [data] the hook returns; [None] is [undefined]. *)
Definition data_of {A : Type} (o : Observed A) : option A :=
  match o with
  | Success data => Some data
  | Disabled | Pending | Failed _ => None
  end.

End QueryCache.

(** ** The change feed *)

Module Realtime.

(** The [filter] of a [postgres_changes] binding.  The code writes it
    as text ([filter_string]); the channel keeps it in the form the
    server evaluates. *)
Inductive Filter : Type :=
| FEq (column value : string)
| FIn (column : string) (values : list string).

#[export] Instance Filter_eq_dec : EqDecision Filter.
Proof. solve_decision. Defined.

(** [`organization_id=eq.${user.id}`] and
    [`event_id=in.(${eventIds.join(',')})`]. *)
Definition filter_string (f : Filter) : string :=
  match f with
  | FEq column value => column +:+ "=eq." +:+ value
  | FIn column values => column +:+ "=in.(" +:+ String.concat "," values +:+ ")"
  end.

(** The two callbacks of the dashboard, each with the user id it
    closes over. *)
Inductive Handler : Type :=
| OnEventsChange (uid : string)
| OnRegistrationsChange (uid : string).

#[export] Instance Handler_eq_dec : EqDecision Handler.
Proof. solve_decision. Defined.

(** A subscribed channel with its one binding.  Every binding of the
    dashboard listens with [event: '*'], that is for inserts, updates
    and deletes alike. *)
Record Channel : Type := mkChannel {
  ch_id : nat;
  ch_name : string;
  ch_schema : string;
  ch_table : string;
  ch_filter : Filter;
  ch_handler : Handler
}.

#[export] Instance Channel_eq_dec : EqDecision Channel.
Proof. solve_decision. Defined.

Inductive ChangeType : Type := INSERT | UPDATE | DELETE.

(** A row-level change notification. *)
Record Change : Type := mkChange {
  chg_type : ChangeType;
  chg_schema : string;
  chg_table : string;
  chg_row : gmap string string
}.

Definition filter_matches (f : Filter) (row : gmap string string) : bool :=
  match f with
  | FEq column value => bool_decide (row !! column = Some value)
  | FIn column values =>
      match row !! column with
      | Some v => bool_decide (v ∈ values)
      | None => false
      end
  end.

(** Whether the server delivers [n] on the binding of [c]. *)
Definition binding_matches (c : Channel) (n : Change) : bool :=
  String.eqb (ch_schema c) (chg_schema n)
  && String.eqb (ch_table c) (chg_table n)
  && filter_matches (ch_filter c) (chg_row n).

(** The requests the view makes on the realtime client. *)
Inductive Op : Type :=
| Subscribed (c : Channel)
| Removed (c : Channel).

End Realtime.

(** ** The organization dashboard *)

Module Dashboard.
Import Js Eff QueryCache Realtime.

Inductive Console : Type :=
| ConsoleLog (text : string) (payload : Change)
| ConsoleError (text : string) (error : Exn).

(** Everything outside the component that it reads or changes. *)
Record World : Type := mkWorld {
  w_queries : gmap (list (option string)) Query;
  w_console : list Console;
  (** channels the realtime client holds open, oldest first *)
  w_channels : list Channel;
  w_next_channel : nat;
  (** requests made on the realtime client, oldest first *)
  w_realtime : list Op
}.

Definition with_queries (f : gmap (list (option string)) Query -> gmap (list (option string)) Query)
    (w : World) : World :=
  {| w_queries := f (w_queries w); w_console := w_console w;
     w_channels := w_channels w; w_next_channel := w_next_channel w;
     w_realtime := w_realtime w |}.

Definition console (line : Console) (w : World) : World :=
  {| w_queries := w_queries w; w_console := w_console w ++ [line];
     w_channels := w_channels w; w_next_channel := w_next_channel w;
     w_realtime := w_realtime w |}.

(** *** The two queries *)

Inductive Response (A : Type) : Type :=
| Data (data : A)
| Error (error : Exn).
Arguments Data {A} data.
Arguments Error {A} error.

(** A row of the second, batched lookup: [id, user_email]. *)
Record EmailRow : Type := mkEmailRow {
  er_id : string;
  er_user_email : option string
}.

(** The relational store as the two fetches see it. *)
Record Store : Type := mkStore {
  select_events : option string -> Response (list Event);
  select_registrations : list string -> Response (list RegistrationRow);
  select_emails : list string -> Response (list EmailRow)
}.

(** [queryFn] of [['organization-events', user?.id]]. *)
Definition eventsQueryFn (db : Store) (user : option User)
    : M World (list Event) :=
  match select_events db (user_id <$> user) with
  | Error error => throw error
  | Data data => mret data
  end.

(** [.filter(Boolean)] on an array of strings and [null]s. *)
Definition filter_Boolean (xs : list (option string)) : list string :=
  List.filter truthy_string (omap id xs).

Definition of_nullable (x : option string) : value :=
  match x with
  | Some s => VStr s
  | None => VNull
  end.

(** [emailMap[key]]: a missing key reads as [undefined]. *)
Definition emailMap_get (emailMap : gmap string value) (key : string) : value :=
  default VUndefined (emailMap !! key).

(** [queryFn] of [['organization-registrations', user?.id]].
    [events] is the [data] of the events query at the time of the
    fetch. *)
Definition registrationsQueryFn (db : Store) (events : option (list Event))
    : M World (list Registration) :=
  match events with
  | None | Some [] => mret []
  | Some evs =>
    match select_registrations db (ev_id <$> evs) with
    | Error error => throw error
    | Data data =>
      (* Now fetch user emails separately *)
      let userIds := filter_Boolean (row_user_id <$> data) in
      if (List.length userIds =? 0)%nat then mret (plain <$> data)
      else
        match select_emails db userIds with
        | Error emailError =>
          modify (console (ConsoleError "Error fetching user emails:" emailError)) ;;
          mret (plain <$> data)
        | Data userEmailsData =>
          (* Create email lookup map *)
          let emailMap :=
            fold_left (fun m user => <[er_id user := of_nullable (er_user_email user)]> m)
                      userEmailsData (∅ : gmap string value) in
          (* Add emails to registrations *)
          mret ((fun reg =>
                   {| reg_row := reg;
                      reg_user_email :=
                        match row_user_id reg with
                        | Some uid =>
                            if truthy_string uid then emailMap_get emailMap uid
                            else VNull
                        | None => VNull
                        end |}) <$> data)
        end
    end
  end.

(** *** Change notifications *)

(** The body of a channel callback. *)
Definition run_handler (h : Handler) (payload : Change) (w : World) : World :=
  match h with
  | OnEventsChange uid =>
      let w := console (ConsoleLog "Events changed, refreshing data:" payload) w in
      with_queries (invalidateQueries (events_key (Some uid))) w
  | OnRegistrationsChange uid =>
      let w := console (ConsoleLog "Registration changes detected, refreshing data:" payload) w in
      let w := with_queries (invalidateQueries (registrations_key (Some uid))) w in
      with_queries (invalidateQueries (events_key (Some uid))) w
  end.

(** The realtime client receives [n]: every open channel whose binding
    matches runs its callback. *)
Definition deliver (n : Change) (w : World) : World :=
  fold_left (fun w c => if binding_matches c n then run_handler (ch_handler c) n w else w)
            (w_channels w) w.

(** *** Channel lifecycle *)

(** [supabase.channel(name).on('postgres_changes', {...}, callback).subscribe()] *)
Definition subscribe (name table : string) (filter : Filter) (callback : Handler)
    (w : World) : World * Channel :=
  let channel :=
    {| ch_id := w_next_channel w; ch_name := name; ch_schema := "public";
       ch_table := table; ch_filter := filter; ch_handler := callback |} in
  ({| w_queries := w_queries w; w_console := w_console w;
      w_channels := w_channels w ++ [channel];
      w_next_channel := S (w_next_channel w);
      w_realtime := w_realtime w ++ [Subscribed channel] |},
   channel).

(** [supabase.removeChannel(channel)] *)
Definition removeChannel (channel : Channel) (w : World) : World :=
  {| w_queries := w_queries w; w_console := w_console w;
     w_channels :=
       List.filter (fun c => negb (ch_id c =? ch_id channel)%nat) (w_channels w);
     w_next_channel := w_next_channel w;
     w_realtime := w_realtime w ++ [Removed channel] |}.

(** The first [useEffect].  The result carries the cleanup function,
    which is [removeChannel] of the channel opened, or nothing when
    the effect returned early. *)
Definition events_effect (user : option User) (w : World)
    : World * option Channel :=
  match user with
  | None => (w, None)
  | Some u =>
      let '(w', channel) :=
        subscribe "organization-events-changes" "events"
                  (FEq "organization_id" (user_id u))
                  (OnEventsChange (user_id u)) w in
      (w', Some channel)
  end.

(** The second [useEffect]. *)
Definition registrations_effect (user : option User)
    (events : option (list Event)) (w : World) : World * option Channel :=
  match user, events with
  | Some u, Some evs =>
      if (List.length evs =? 0)%nat then (w, None)
      else
        let eventIds := ev_id <$> evs in
        if (List.length eventIds =? 0)%nat then (w, None)
        else
          let '(w', channel) :=
            subscribe "registrations-changes" "registrations"
                      (FIn "event_id" eventIds)
                      (OnRegistrationsChange (user_id u)) w in
          (w', Some channel)
  | _, _ => (w, None)
  end.

End Dashboard.

(** ** The mounted dashboard: effects, dependencies and cleanups *)

Module View.
Import Realtime Dashboard.

(** Dependencies of an effect are compared by identity, so a render
    receives its [user] and its [events] as references into a heap of
    objects that are never mutated. *)
Record Heap : Type := mkHeap {
  deref_user : nat -> User;
  deref_events : nat -> list Event
}.

(** What [useAuth()] and the events query return in one render;
    [None] is [null]/[undefined]. *)
Record Props : Type := mkProps {
  p_user : option nat;
  p_events : option nat
}.

(** Per effect, the dependencies of its last run ([None] while the
    view is not mounted) and the cleanup that run returned.  The
    [queryClient] dependency is the same object in every render and
    is left out. *)
Record Hooks : Type := mkHooks {
  events_deps : option (option nat);
  events_cleanup : option Channel;
  registrations_deps : option (option nat * option nat);
  registrations_cleanup : option Channel
}.

Definition unmounted : Hooks :=
  {| events_deps := None; events_cleanup := None;
     registrations_deps := None; registrations_cleanup := None |}.

(** An effect runs after the first render and after every render in
    which a dependency is a different object. *)
Definition deps_changed {D : Type} `{EqDecision D} (prev : option D) (next : D) : bool :=
  match prev with
  | None => true
  | Some d => negb (bool_decide (d = next))
  end.

Definition run_cleanup (cleanup : option Channel) (w : World) : World :=
  match cleanup with
  | Some channel => removeChannel channel w
  | None => w
  end.

(** Committing a render: the cleanups of the effects that are about
    to run again are called first, in the order of the effects, then
    the effects themselves. *)
Definition commit (heap : Heap) (p : Props) (s : Hooks * World) : Hooks * World :=
  let '(h, w) := s in
  let user := deref_user heap <$> p_user p in
  let events := deref_events heap <$> p_events p in
  let rerun_events := deps_changed (events_deps h) (p_user p) in
  let rerun_registrations :=
    deps_changed (registrations_deps h) (p_user p, p_events p) in
  let w := if rerun_events then run_cleanup (events_cleanup h) w else w in
  let w := if rerun_registrations then run_cleanup (registrations_cleanup h) w else w in
  let '(w, c1) :=
    if rerun_events then events_effect user w else (w, events_cleanup h) in
  let '(w, c2) :=
    if rerun_registrations then registrations_effect user events w
    else (w, registrations_cleanup h) in
  ({| events_deps := Some (p_user p); events_cleanup := c1;
      registrations_deps := Some (p_user p, p_events p);
      registrations_cleanup := c2 |}, w).

(** Unmounting calls every cleanup. *)
Definition unmount (s : Hooks * World) : Hooks * World :=
  let '(h, w) := s in
  let w := run_cleanup (events_cleanup h) w in
  let w := run_cleanup (registrations_cleanup h) w in
  (unmounted, w).

Inductive Step : Type :=
| Render (p : Props)
| Unmount
| Notify (n : Change).

Definition step (heap : Heap) (s : Hooks * World) (e : Step) : Hooks * World :=
  match e with
  | Render p => commit heap p s
  | Unmount => unmount s
  | Notify n => (fst s, deliver n (snd s))
  end.

Definition run (heap : Heap) (es : list Step) (s : Hooks * World) : Hooks * World :=
  fold_left (step heap) es s.

(** The states a view goes through, from before its first mount with
    no channel open. *)
Definition reachable (heap : Heap) (s : Hooks * World) : Prop :=
  exists (w0 : World) (es : list Step),
    w_channels w0 = [] /\ s = run heap es (unmounted, w0).

(** The open channels bound to [table] with [filter]. *)
Definition open_on (table : string) (filter : Filter) (w : World) : list Channel :=
  List.filter (fun c => bool_decide (ch_table c = table /\ ch_filter c = filter))
              (w_channels w).

Definition event_ids (heap : Heap) (ref : option nat) : option (list string) :=
  (fun a => ev_id <$> deref_events heap a) <$> ref.

End View.

(** ** The authentication context *)

Module Auth.
Import Js Eff.

(** Modelled from the spec: the [UserRole] type of [@/utils/auth-utils]
    is not among the sources; the specification names a closed set of
    roles with at least these two. *)
Inductive UserRole : Type := Organization | Volunteer.

Record Session : Type := mkSession {
  session_user : User
}.

(** [{ data: { user }, error }] of an identity-provider call. *)
Record AuthResponse : Type := mkAuthResponse {
  data_user : option User;
  error : option Exn
}.

(** The identity provider as the three operations see it. *)
Record IdentityProvider : Type := mkIdp {
  signUp_response : string -> string -> UserRole -> AuthResponse;
  signInWithPassword_response : string -> string -> AuthResponse;
  signOut_error : option Exn
}.

(** Calls on the collaborators of the context, as they are made. *)
Inductive Call : Type :=
| AuthSignUp (email password : string) (role : UserRole)
| AuthSignInWithPassword (email password : string)
| AuthSignOut
(** [await new Promise(resolve => setTimeout(resolve, ms))] *)
| SetTimeout (ms : Z)
(** [handleAuthNavigation(userId, navigate)], the post-auth routing of
    [@/utils/auth-utils]; it is not among the sources, so the call is
    recorded and what it goes on to do is left open *)
| HandleAuthNavigation (userId : string)
| Navigate (path : string)
| ToastSuccess (text : string)
| ToastError (text : string).

#[export] Instance UserRole_eq_dec : EqDecision UserRole.
Proof. solve_decision. Defined.

#[export] Instance Call_eq_dec : EqDecision Call.
Proof. solve_decision. Defined.

(** The state of [AuthProvider] and the calls made so far, oldest
    first. *)
Record State : Type := mkState {
  user : option User;
  loading : bool;
  calls : list Call
}.

(** [useState(null)], [useState(true)]. *)
Definition initial : State :=
  {| user := None; loading := true; calls := [] |}.

Definition setUser (u : option User) : M State unit :=
  modify (fun s => {| user := u; loading := loading s; calls := calls s |}).

Definition setLoading (b : bool) : M State unit :=
  modify (fun s => {| user := user s; loading := b; calls := calls s |}).

Definition call (c : Call) : M State unit :=
  modify (fun s => {| user := user s; loading := loading s; calls := calls s ++ [c] |}).

(** Modelled from the spec: [handleAuthError] of [@/utils/auth-utils]
    is not among the sources; the specification has auth errors
    caught at the session store's boundary and converted to a
    user-visible notification. *)
Definition handleAuthError (error : Exn) : M State unit :=
  call (ToastError (message error)).

(** The callback of [supabase.auth.getSession().then(...)]. *)
Definition getSession_then (session : option Session) : M State unit :=
  setUser (session_user <$> session) ;;
  setLoading false ;;
  match session with
  | Some s => call (HandleAuthNavigation (user_id (session_user s)))
  | None => mret tt
  end.

(** The callback of [supabase.auth.onAuthStateChange(...)]. *)
Definition onAuthStateChange (_event : string) (session : option Session)
    : M State unit :=
  setUser (session_user <$> session) ;;
  setLoading false ;;
  match session with
  | Some s => call (HandleAuthNavigation (user_id (session_user s)))
  | None => mret tt
  end.

Definition signUp (idp : IdentityProvider) (email password : string)
    (role : UserRole) : M State unit :=
  try_catch
    (call (AuthSignUp email password role) ;;
     let r := signUp_response idp email password role in
     match error r with
     | Some signUpError => throw signUpError
     | None =>
       match data_user r with
       | None => throw (JsError "No user data returned")
       | Some signUpUser =>
         call (AuthSignInWithPassword email password) ;;
         match error (signInWithPassword_response idp email password) with
         | Some signInError => throw signInError
         | None =>
           call (SetTimeout 1500) ;;
           if truthy_string (user_id signUpUser) then
             call (HandleAuthNavigation (user_id signUpUser)) ;;
             call (ToastSuccess "Account created and logged in successfully!")
           else mret tt
         end
       end
     end)
    handleAuthError.

Definition signIn (idp : IdentityProvider) (email password : string)
    : M State unit :=
  try_catch
    (call (AuthSignInWithPassword email password) ;;
     let r := signInWithPassword_response idp email password in
     match error r with
     | Some signInError => throw signInError
     | None =>
       match data_user r with
       | None => throw (JsError "No user data returned")
       | Some signInUser =>
         call (ToastSuccess "Logged in successfully!") ;;
         if truthy_string (user_id signInUser) then
           call (HandleAuthNavigation (user_id signInUser))
         else mret tt
       end
     end)
    handleAuthError.

Definition signOut (idp : IdentityProvider) : M State unit :=
  try_catch
    (call AuthSignOut ;;
     match signOut_error idp with
     | Some error => throw error
     | None => call (Navigate "/login")
     end)
    handleAuthError.

(** What happens to the context: the initial restore resolves, the
    identity provider notifies of a change, or a consumer calls one
    of the three operations. *)
Inductive Action : Type :=
| SessionRestored (session : option Session)
| AuthStateChanged (event : string) (session : option Session)
| SignUp (idp : IdentityProvider) (email password : string) (role : UserRole)
| SignIn (idp : IdentityProvider) (email password : string)
| SignOut (idp : IdentityProvider).

Definition perform (a : Action) : M State unit :=
  match a with
  | SessionRestored session => getSession_then session
  | AuthStateChanged event session => onAuthStateChange event session
  | SignUp idp email password role => signUp idp email password role
  | SignIn idp email password => signIn idp email password
  | SignOut idp => signOut idp
  end.

Definition step (s : State) (a : Action) : State := exec (perform a) s.

Definition run (actions : list Action) (s : State) : State :=
  fold_left step actions s.

(** The actions that complete the restore or process a notification. *)
Definition resolves_session (a : Action) : bool :=
  match a with
  | SessionRestored _ | AuthStateChanged _ _ => true
  | SignUp _ _ _ _ | SignIn _ _ _ | SignOut _ => false
  end.

End Auth.


(** ** What the dashboard renders *)

Module Page.
Import Js DateFns Aggregation.

(** The badge of an event card. *)
Inductive Label : Type := Active | Completed.

#[export] Instance Label_eq_dec : EqDecision Label.
Proof. solve_decision. Defined.

(** Truthiness of a string that may be [null]. *)
Definition truthy_nullable (x : option string) : bool :=
  match x with
  | Some s => truthy_string s
  | None => false
  end.

(** [x && <p>{x}</p>]: the line is there for a non-empty string only. *)
Definition line (v : value) : option string :=
  match v with
  | VStr s => if truthy_string s then Some s else None
  | VUndefined | VNull => None
  end.

(** [reg.profiles?.field]. *)
Definition profile_field (f : Profile -> option string) (reg : Registration)
    : option string :=
  row_profiles (reg_row reg) ≫= f.

(** [x || fallback] on a string that may be [null]. *)
Definition or_else (x : option string) (fallback : string) : string :=
  match x with
  | Some s => if truthy_string s then s else fallback
  | None => fallback
  end.

(** The tooltip of one registered volunteer. *)
Record Tooltip : Type := mkTooltip {
  tt_name : string;
  tt_email : option string;
  tt_phone : option string;
  (** [reg.registration_time], shown through [format] *)
  tt_registered_on : string
}.

(** The round picture of one registered volunteer: the profile image
    with its [alt] text, or the generic icon ([None]). *)
Record Avatar : Type := mkAvatar {
  av_key : string;
  av_image : option (string * string);
  av_tooltip : Tooltip
}.

Definition avatar (reg : Registration) : Avatar :=
  {| av_key := row_id (reg_row reg);
     av_image :=
       match profile_field pr_profile_image_url reg with
       | Some url =>
           if truthy_string url
           then Some (url, or_else (profile_field pr_full_name reg) "")
           else None
       | None => None
       end;
     av_tooltip :=
       {| tt_name := or_else (profile_field pr_full_name reg) "Anonymous";
          tt_email := line (reg_user_email reg);
          tt_phone := line (Dashboard.of_nullable (profile_field pr_phone reg));
          tt_registered_on := row_registration_time (reg_row reg) |} |}.

(** The "Registered Volunteers" block of a card:
    [eventRegistrations.slice(0, 8)] and, past eight, the [+n] badge. *)
Record Volunteers : Type := mkVolunteers {
  vol_avatars : list Avatar;
  vol_more : option Z
}.

Definition volunteers (eventRegistrations : list Registration) : option Volunteers :=
  if (0 <? len eventRegistrations)%Z then
    Some {| vol_avatars := avatar <$> take 8 eventRegistrations;
            vol_more :=
              if (8 <? len eventRegistrations)%Z
              then Some (len eventRegistrations - 8)%Z
              else None |}
  else None.

Record Card : Type := mkCard {
  card_key : string;
  card_title : string;
  card_location : string;
  card_current_volunteers : option Z;
  card_volunteers_needed : Z;
  card_label : Label;
  card_registered : option Volunteers
}.

(** The body of [events?.map((event) => ...)]. *)
Definition card (now : Z) (registrations : option (list Registration))
    (event : Event) : Card :=
  let eventRegistrations := getEventRegistrations registrations (ev_id event) in
  let isEventPast := isPast now (ev_date event) in
  {| card_key := ev_id event;
     card_title := ev_title event;
     card_location := ev_location event;
     card_current_volunteers := ev_current_volunteers event;
     card_volunteers_needed := ev_volunteers_needed event;
     card_label := if negb isEventPast then Active else Completed;
     card_registered := volunteers eventRegistrations |}.

(** What the component returns. *)
Inductive Rendered : Type :=
| Loading
| Shown (stats : Stats) (analytics : bool) (cards : list Card) (noEventsYet : bool).

(** The component body after its hooks: [isLoading] is the flag of the
    events query, [events] and [registrations] the [data] of the two
    queries, [now] the reading of the clock in this render. *)
Definition render (now : Z) (isLoading : bool) (events : option (list Event))
    (registrations : option (list Registration)) : Rendered :=
  if isLoading then Loading
  else
    Shown
      (stats now events)
      (match registrations, events with
       | Some (_ :: _), Some _ => true
       | _, _ => false
       end)
      (match events with
       | Some es => card now registrations <$> es
       | None => []
       end)
      (match events with
       | Some [] => true
       | _ => false
       end).

(** The [enabled] options of the two queries. *)
Definition events_enabled (user : option User) : bool :=
  match user with
  | Some _ => true
  | None => false
  end.

Definition registrations_enabled (events : option (list Event)) : bool :=
  match events with
  | Some evs => (0 <? len evs)%Z
  | None => false
  end.

End Page.

(** * Predicates of the specification and sample inputs *)

(** The event's date lies before [now]. *)
Definition in_the_past (now : Z) (e : Event) : Prop :=
  match ev_date e with
  | Some t => (t < now)%Z
  | None => False
  end.

(** The event's date lies after [now], strictly. *)
Definition strictly_ahead (now : Z) (e : Event) : Prop :=
  match ev_date e with
  | Some t => (now < t)%Z
  | None => False
  end.

(** The event's date is [now] or later, or is no valid date at all. *)
Definition not_before (now : Z) (e : Event) : Prop :=
  match ev_date e with
  | Some t => (now <= t)%Z
  | None => True
  end.

#[global] Instance not_before_dec now e : Decision (not_before now e).
Proof. unfold not_before. destruct (ev_date e); apply _. Defined.

#[global] Instance in_the_past_dec now e : Decision (in_the_past now e).
Proof. unfold in_the_past. destruct (ev_date e); apply _. Defined.

#[global] Instance strictly_ahead_dec now e : Decision (strictly_ahead now e).
Proof. unfold strictly_ahead. destruct (ev_date e); apply _. Defined.

(** An event that takes place at time [t]. *)
Definition event_at (t : Z) : Event :=
  {| ev_id := "1"; ev_organization_id := "org-1"; ev_title := "Beach cleanup";
     ev_date := Some t; ev_location := "Pier 7";
     ev_volunteers_needed := 10; ev_current_volunteers := Some 3%Z |}.

(** A day in milliseconds, and an evaluation time. *)
Definition day : Z := 86400000%Z.
Definition now_sample : Z := 1700000000000%Z.

(** The calls a computation adds to those already made. *)
Definition new_calls (m : Eff.M Auth.State unit) (s : Auth.State) : list Auth.Call :=
  drop (length (Auth.calls s)) (Auth.calls (Eff.exec m s)).

(** An identity provider whose sign-out fails. *)
Definition idp_sign_out_fails : Auth.IdentityProvider :=
  {| Auth.signUp_response := fun _ _ _ =>
       {| Auth.data_user := None; Auth.error := Some (Eff.AuthApiError "Failed to fetch") |};
     Auth.signInWithPassword_response := fun _ _ =>
       {| Auth.data_user := None; Auth.error := Some (Eff.AuthApiError "Failed to fetch") |};
     Auth.signOut_error := Some (Eff.AuthApiError "Failed to fetch") |}.

(** An identity provider that accepts everything, for the user
    ["u-1"]. *)
Definition idp_accepts : Auth.IdentityProvider :=
  {| Auth.signUp_response := fun _ _ _ =>
       {| Auth.data_user := Some {| user_id := "u-1" |}; Auth.error := None |};
     Auth.signInWithPassword_response := fun _ _ =>
       {| Auth.data_user := Some {| user_id := "u-1" |}; Auth.error := None |};
     Auth.signOut_error := None |}.

(** Two fetched registrations, one without a user. *)
Definition row_sample (id event : string) (uid : option string) : RegistrationRow :=
  {| row_id := id; row_event_id := event; row_user_id := uid;
     row_registration_time := "2024-05-01T10:00:00Z";
     row_emergency_contact := None; row_dietary_restrictions := None;
     row_notes := None; row_profiles := None |}.

(** A store whose batched email lookup fails. *)
Definition store_email_lookup_fails : Dashboard.Store :=
  {| Dashboard.select_events := fun _ => Dashboard.Data [event_at now_sample];
     Dashboard.select_registrations := fun _ =>
       Dashboard.Data [row_sample "r-1" "1" (Some "u-1"); row_sample "r-2" "1" None];
     Dashboard.select_emails := fun _ =>
       Dashboard.Error (Eff.PostgrestError "permission denied for table users") |}.

(** A store whose batched email lookup answers for ["u-1"]. *)
Definition store_email_lookup_works : Dashboard.Store :=
  {| Dashboard.select_events := fun _ => Dashboard.Data [event_at now_sample];
     Dashboard.select_registrations := fun _ =>
       Dashboard.Data [row_sample "r-1" "1" (Some "u-1"); row_sample "r-2" "1" None];
     Dashboard.select_emails := fun _ =>
       Dashboard.Data [{| Dashboard.er_id := "u-1";
                          Dashboard.er_user_email := Some "ana@example.org" |}] |}.

Definition world_empty : Dashboard.World :=
  {| Dashboard.w_queries := ∅; Dashboard.w_console := [];
     Dashboard.w_channels := []; Dashboard.w_next_channel := 0;
     Dashboard.w_realtime := [] |}.

(** The query keys a callback invalidates. *)
Definition handler_invalidates (h : Realtime.Handler) (key : QueryCache.QueryKey) : bool :=
  match h with
  | Realtime.OnEventsChange uid =>
      QueryCache.key_matches (QueryCache.events_key (Some uid)) key
  | Realtime.OnRegistrationsChange uid =>
      QueryCache.key_matches (QueryCache.registrations_key (Some uid)) key
      || QueryCache.key_matches (QueryCache.events_key (Some uid)) key
  end.

(** A registration of user ["u-1"] for event ["1"] was inserted. *)
Definition registration_inserted : Realtime.Change :=
  {| Realtime.chg_type := Realtime.INSERT; Realtime.chg_schema := "public";
     Realtime.chg_table := "registrations";
     Realtime.chg_row := {[ "event_id" := "1"; "user_id" := "u-1" ]} |}.

(** Event ["1"] of organization ["org-1"] was deleted. *)
Definition event_deleted : Realtime.Change :=
  {| Realtime.chg_type := Realtime.DELETE; Realtime.chg_schema := "public";
     Realtime.chg_table := "events";
     Realtime.chg_row := {[ "id" := "1"; "organization_id" := "org-1" ]} |}.

(** The organization ["org-1"], logged in. *)
Definition org_user : User := {| user_id := "org-1" |}.

(** A world in which both queries of ["org-1"] are cached and fresh. *)
Definition world_cached : Dashboard.World :=
  {| Dashboard.w_queries :=
       {[ QueryCache.events_key (Some "org-1") :=
            {| QueryCache.q_data := Some (QueryCache.EventsData [event_at now_sample]);
               QueryCache.q_isInvalidated := false |};
          QueryCache.registrations_key (Some "org-1") :=
            {| QueryCache.q_data :=
                 Some (QueryCache.RegistrationsData
                         [plain (row_sample "r-1" "1" (Some "u-1"))]);
               QueryCache.q_isInvalidated := false |} ]};
     Dashboard.w_console := [];
     Dashboard.w_channels := []; Dashboard.w_next_channel := 0;
     Dashboard.w_realtime := [] |}.

(** The same world once the registrations effect has run for the one
    event ["1"], and the channel it opened. *)
Definition world_subscribed : Dashboard.World :=
  fst (Dashboard.registrations_effect (Some org_user) (Some [event_at now_sample])
         world_cached).

(** The cached world once the events effect has run. *)
Definition world_events_subscribed : Dashboard.World :=
  fst (Dashboard.events_effect (Some org_user) world_cached).

Definition registrations_channel : Realtime.Channel :=
  {| Realtime.ch_id := 0; Realtime.ch_name := "registrations-changes";
     Realtime.ch_schema := "public"; Realtime.ch_table := "registrations";
     Realtime.ch_filter := Realtime.FIn "event_id" ["1"];
     Realtime.ch_handler := Realtime.OnRegistrationsChange "org-1" |}.

(** The channels whose cleanup the view still holds. *)
Definition cleanups (h : View.Hooks) : list Realtime.Channel :=
  option_list (View.events_cleanup h) ++ option_list (View.registrations_cleanup h).

(** What holds of a view and its world between two steps: the open
    channels are those the view will still clean up, one per effect at
    most, each bound to the table of its effect, with identifiers that
    were handed out once. *)
Record view_inv (s : View.Hooks * Dashboard.World) : Prop := mk_view_inv {
  inv_open : Dashboard.w_channels (snd s) = cleanups (fst s);
  inv_fresh : forall c, c ∈ Dashboard.w_channels (snd s) ->
                Realtime.ch_id c < Dashboard.w_next_channel (snd s);
  inv_distinct : forall c1 c2, View.events_cleanup (fst s) = Some c1 ->
                   View.registrations_cleanup (fst s) = Some c2 ->
                   Realtime.ch_id c1 <> Realtime.ch_id c2;
  inv_events : forall c, View.events_cleanup (fst s) = Some c ->
                 Realtime.ch_table c = "events";
  inv_registrations : forall c, View.registrations_cleanup (fst s) = Some c ->
                        Realtime.ch_table c = "registrations";
  inv_deps : View.events_deps (fst s) = fst <$> View.registrations_deps (fst s)
}.

(** What running an effect body does to the world. *)
Definition effect_spec (table : string) (w w' : Dashboard.World)
    (o : option Realtime.Channel) : Prop :=
  Dashboard.w_channels w' = Dashboard.w_channels w ++ option_list o
  /\ Dashboard.w_realtime w'
     = Dashboard.w_realtime w ++ (Realtime.Subscribed <$> option_list o)
  /\ Dashboard.w_next_channel w' = Dashboard.w_next_channel w + length (option_list o)
  /\ forall c, o = Some c ->
       Realtime.ch_id c = Dashboard.w_next_channel w /\ Realtime.ch_table c = table.

(** A heap with the organization at address [0] and two versions of its
    event list: events ["1"], ["2"] at address [0], and events ["1"],
    ["2"], ["3"] at every other address. *)
Definition event_numbered (id : string) : Event :=
  {| ev_id := id; ev_organization_id := "org-1"; ev_title := "Food drive";
     ev_date := Some now_sample; ev_location := "Town hall";
     ev_volunteers_needed := 20; ev_current_volunteers := None |}.

Definition heap_sample : View.Heap :=
  {| View.deref_user := fun _ => org_user;
     View.deref_events := fun a =>
       match a with
       | 0 => [event_numbered "1"; event_numbered "2"]
       | _ => [event_numbered "1"; event_numbered "2"; event_numbered "3"]
       end |}.

(** The dashboard mounted for the organization with events ["1"] and
    ["2"]. *)
Definition mounted_sample : View.Hooks * Dashboard.World :=
  View.run heap_sample
    [View.Render {| View.p_user := Some 0; View.p_events := Some 0 |}]
    (View.unmounted, world_empty).

(** The channel the registrations effect opened in [mounted_sample],
    and a later render in which the organization has a third event. *)
Definition registrations_channel_12 : Realtime.Channel :=
  {| Realtime.ch_id := 1; Realtime.ch_name := "registrations-changes";
     Realtime.ch_schema := "public"; Realtime.ch_table := "registrations";
     Realtime.ch_filter := Realtime.FIn "event_id" ["1"; "2"];
     Realtime.ch_handler := Realtime.OnRegistrationsChange "org-1" |}.

Definition render_three_events : View.Props :=
  {| View.p_user := Some 0; View.p_events := Some 1 |}.

(** The email the enrichment gives a row with user id [uid]: [null]
    without a (non-empty) user id; otherwise the email of the last row
    of the lookup for that id, and [undefined] if there is none. *)
Definition email_for (emails : list Dashboard.EmailRow) (uid : option string) : Js.value :=
  match uid with
  | Some u =>
      if Js.truthy_string u then
        match List.find (fun r => String.eqb (Dashboard.er_id r) u) (rev emails) with
        | Some r => Dashboard.of_nullable (Dashboard.er_user_email r)
        | None => Js.VUndefined
        end
      else Js.VNull
  | None => Js.VNull
  end.

(** A store whose registrations query fails. *)
Definition store_registrations_fail : Dashboard.Store :=
  {| Dashboard.select_events := fun _ => Dashboard.Data [event_at now_sample];
     Dashboard.select_registrations := fun _ =>
       Dashboard.Error (Eff.PostgrestError "JWT expired");
     Dashboard.select_emails := fun _ => Dashboard.Data [] |}.

(** A store whose email lookup answers twice for ["u-1"]. *)
Definition store_email_twice : Dashboard.Store :=
  {| Dashboard.select_events := fun _ => Dashboard.Data [event_at now_sample];
     Dashboard.select_registrations := fun _ =>
       Dashboard.Data [row_sample "r-1" "1" (Some "u-1"); row_sample "r-2" "1" (Some "u-2")];
     Dashboard.select_emails := fun _ =>
       Dashboard.Data
         [{| Dashboard.er_id := "u-1"; Dashboard.er_user_email := Some "old@example.org" |};
          {| Dashboard.er_id := "u-1"; Dashboard.er_user_email := Some "ana@example.org" |}] |}.

(** The channels a commit removes, and those it subscribes, given the
    hooks before ([h]) and after ([h']) it. *)
Definition closed_by (p : View.Props) (h : View.Hooks) : list Realtime.Channel :=
  (if View.deps_changed (View.events_deps h) (View.p_user p)
   then option_list (View.events_cleanup h) else [])
  ++ (if View.deps_changed (View.registrations_deps h) (View.p_user p, View.p_events p)
      then option_list (View.registrations_cleanup h) else []).

Definition opened_by (p : View.Props) (h h' : View.Hooks) : list Realtime.Channel :=
  (if View.deps_changed (View.events_deps h) (View.p_user p)
   then option_list (View.events_cleanup h') else [])
  ++ (if View.deps_changed (View.registrations_deps h) (View.p_user p, View.p_events p)
      then option_list (View.registrations_cleanup h') else []).

(** How many subscriptions, and how many removals, a log holds. *)
Definition subscriptions (log : list Realtime.Op) : nat :=
  length (List.filter (fun op => match op with
                                 | Realtime.Subscribed _ => true
                                 | Realtime.Removed _ => false
                                 end) log).

Definition removals (log : list Realtime.Op) : nat :=
  length (List.filter (fun op => match op with
                                 | Realtime.Subscribed _ => false
                                 | Realtime.Removed _ => true
                                 end) log).

(** The channel the events effect holds is the one for the user of the
    last render. *)
Definition events_channel_current (heap : View.Heap) (h : View.Hooks) : Prop :=
  forall c, View.events_cleanup h = Some c ->
    exists a, View.events_deps h = Some (Some a)
      /\ Realtime.ch_filter c
         = Realtime.FEq "organization_id" (user_id (View.deref_user heap a))
      /\ Realtime.ch_handler c
         = Realtime.OnEventsChange (user_id (View.deref_user heap a)).

(** The channel the registrations effect holds is the one for the user
    and the events of the last render. *)
Definition registrations_channel_current (heap : View.Heap) (h : View.Hooks) : Prop :=
  forall c, View.registrations_cleanup h = Some c ->
    exists a b, View.registrations_deps h = Some (Some a, Some b)
      /\ View.deref_events heap b <> []
      /\ Realtime.ch_filter c
         = Realtime.FIn "event_id" (ev_id <$> View.deref_events heap b)
      /\ Realtime.ch_handler c
         = Realtime.OnRegistrationsChange (user_id (View.deref_user heap a)).

(** Whenever the last render had what an effect needs, the effect holds
    a channel. *)
Definition channels_present (heap : View.Heap) (h : View.Hooks) : Prop :=
  (forall a, View.events_deps h = Some (Some a) -> is_Some (View.events_cleanup h))
  /\ (forall a b, View.registrations_deps h = Some (Some a, Some b) ->
        View.deref_events heap b <> [] -> is_Some (View.registrations_cleanup h)).

(** The two heap addresses of [heap_same_ids] hold event lists with the
    same ids but different volunteer counts. *)
Definition heap_same_ids : View.Heap :=
  {| View.deref_user := fun _ => org_user;
     View.deref_events := fun a =>
       match a with
       | 0 => [event_numbered "1"; event_numbered "2"]
       | _ => [ {| ev_id := "1"; ev_organization_id := "org-1"; ev_title := "Food drive";
                   ev_date := Some now_sample; ev_location := "Town hall";
                   ev_volunteers_needed := 20; ev_current_volunteers := Some 1%Z |};
                event_numbered "2" ]
       end |}.

Definition mounted_same_ids : View.Hooks * Dashboard.World :=
  View.run heap_same_ids
    [View.Render {| View.p_user := Some 0; View.p_events := Some 0 |}]
    (View.unmounted, world_empty).

(** Ten registrations for event ["1"], [r-0] to [r-9]. *)
Definition ten_registrations : list Registration :=
  (fun i => plain (row_sample ("r-" +:+ i) "1" (Some ("u-" +:+ i))))
    <$> ["0"; "1"; "2"; "3"; "4"; "5"; "6"; "7"; "8"; "9"].

(** The session an action delivers to the context, if it delivers
    one. *)
Definition session_of (a : Auth.Action) : option (option Auth.Session) :=
  match a with
  | Auth.SessionRestored session | Auth.AuthStateChanged _ session => Some session
  | Auth.SignUp _ _ _ _ | Auth.SignIn _ _ _ | Auth.SignOut _ => None
  end.

(** An identity provider that creates the account but refuses the
    sign-in that follows. *)
Definition idp_sign_in_fails : Auth.IdentityProvider :=
  {| Auth.signUp_response := fun _ _ _ =>
       {| Auth.data_user := Some {| user_id := "u-1" |}; Auth.error := None |};
     Auth.signInWithPassword_response := fun _ _ =>
       {| Auth.data_user := None;
          Auth.error := Some (Eff.AuthApiError "Email not confirmed") |};
     Auth.signOut_error := None |}.

(** * Properties *)

(** ** Aggregation *)

Section AggregationProperties.
Import Js DateFns Aggregation.

Lemma or_zero_Some (n : Z) : or_zero (Some n) = n.
Proof. unfold or_zero. destruct (Z.eqb_spec n 0); congruence. Qed.

Lemma or_zero_fmap {A} (f : list A -> Z) (xs : option (list A)) :
  f [] = 0%Z -> or_zero (f <$> xs) = f (default [] xs).
Proof. destruct xs; simpl; intros H; [apply or_zero_Some | by rewrite H]. Qed.

Lemma isPast_spec now e : isPast now (ev_date e) = bool_decide (in_the_past now e).
Proof.
  destruct (decide (in_the_past now e)) as [H|H].
  - rewrite bool_decide_eq_true_2 by done.
    unfold in_the_past in H. unfold isPast.
    destruct (ev_date e); [by apply Z.ltb_lt | done].
  - rewrite bool_decide_eq_false_2 by done.
    unfold in_the_past in H. unfold isPast.
    destruct (ev_date e); [by apply Z.ltb_ge; lia | done].
Qed.

Lemma filter_bool_decide {A} (P : A -> Prop) `{forall x, Decision (P x)} (l : list A) :
  List.filter (fun x => bool_decide (P x)) l = filter P l.
Proof.
  induction l as [|x l IH]; [done |].
  simpl. rewrite filter_cons. rewrite IH.
  destruct (decide (P x)).
  - by rewrite bool_decide_eq_true_2.
  - by rewrite bool_decide_eq_false_2.
Qed.

Lemma filter_complement_length {A} (f : A -> bool) (l : list A) :
  (len (List.filter (fun x => negb (f x)) l) + len (List.filter f l) = len l)%Z.
Proof.
  unfold len. induction l as [|x l IH]; [done |].
  simpl. destruct (f x); simpl; lia.
Qed.

Lemma fold_left_volunteers (es : list Event) (acc : Z) :
  fold_left (fun acc e => (acc + or_zero (ev_current_volunteers e))%Z) es acc
  = (acc + foldr Z.add 0 ((fun e => default 0 (ev_current_volunteers e)) <$> es))%Z.
Proof.
  revert acc. induction es as [|e es IH]; intros acc; [simpl; lia |].
  cbn [fold_left]. rewrite IH, fmap_cons. cbn [foldr].
  assert (or_zero (ev_current_volunteers e) = default 0%Z (ev_current_volunteers e)) as ->.
  { destruct (ev_current_volunteers e); [apply or_zero_Some | done]. }
  lia.
Qed.

(** C1. For every cached event collection and every evaluation time,
    the counts partition the collection:
    [activeEvents + completedEvents = totalEvents], and [totalEvents]
    is the number of cached events (all three are [0] while the
    collection is still undefined). *)
Theorem stats_counts_partition (now : Z) (events : option (list Event)) :
  (activeEvents (stats now events) + completedEvents (stats now events)
   = totalEvents (stats now events))%Z
  /\ totalEvents (stats now events) = len (default [] events).
Proof.
  unfold stats; simpl.
  rewrite !or_zero_fmap by done.
  split; [apply filter_complement_length | done].
Qed.

(** C1, the specification's example: one event yesterday and one
    tomorrow give one active, one completed, two in total. *)
Example stats_yesterday_tomorrow :
  let s := stats now_sample (Some [event_at (now_sample - day); event_at (now_sample + day)]) in
  (activeEvents s, completedEvents s, totalEvents s) = (1, 1, 2)%Z.
Proof. reflexivity. Qed.

Lemma not_isPast_spec now e :
  negb (isPast now (ev_date e)) = bool_decide (not_before now e).
Proof.
  destruct (decide (not_before now e)) as [H|H].
  - rewrite bool_decide_eq_true_2 by done.
    unfold not_before in H. unfold isPast.
    destruct (ev_date e); [| done].
    apply negb_true_iff, Z.ltb_ge. lia.
  - rewrite bool_decide_eq_false_2 by done.
    unfold not_before in H. unfold isPast.
    destruct (ev_date e); [| done].
    apply negb_false_iff, Z.ltb_lt. lia.
Qed.

Lemma activeEvents_count now events :
  activeEvents (stats now events)
  = len (filter (not_before now) (default [] events)).
Proof.
  unfold stats; simpl. rewrite or_zero_fmap by done.
  f_equal. rewrite <- filter_bool_decide.
  apply List.filter_ext. intros e. apply not_isPast_spec.
Qed.

Lemma completedEvents_count now events :
  completedEvents (stats now events)
  = len (filter (in_the_past now) (default [] events)).
Proof.
  unfold stats; simpl. rewrite or_zero_fmap by done.
  f_equal. rewrite <- filter_bool_decide.
  apply List.filter_ext. intros e. apply isPast_spec.
Qed.

(** C4, as stated, fails: an event whose date equals the evaluation
    time is counted by [activeEvents], although its date is not
    strictly ahead of [now]. *)
Lemma active_strictly_ahead_counterexample :
  activeEvents (stats now_sample (Some [event_at now_sample])) = 1%Z
  /\ len (filter (strictly_ahead now_sample) [event_at now_sample]) = 0%Z.
Proof. split; reflexivity. Qed.

(** C4, amended. [activeEvents] counts exactly the events whose date is
    not in the past, that is whose date is [now] or later (or does not
    parse); [completedEvents] counts exactly the events whose date is
    before [now]; an event whose date equals [now] is counted as
    active and not as completed. *)
Theorem active_completed_counts (now : Z) (events : option (list Event)) :
  activeEvents (stats now events)
    = len (filter (not_before now) (default [] events))
  /\ completedEvents (stats now events)
    = len (filter (in_the_past now) (default [] events))
  /\ forall e : Event, ev_date e = Some now ->
       activeEvents (stats now (Some (e :: default [] events)))
         = (1 + activeEvents (stats now events))%Z
       /\ completedEvents (stats now (Some (e :: default [] events)))
         = completedEvents (stats now events).
Proof.
  split; [apply activeEvents_count |].
  split; [apply completedEvents_count |].
  intros e He.
  rewrite !activeEvents_count, !completedEvents_count. simpl.
  rewrite !filter_cons.
  destruct (decide (not_before now e)) as [_|Hn].
  2:{ exfalso. apply Hn. unfold not_before. rewrite He. lia. }
  destruct (decide (in_the_past now e)) as [Hp|_].
  { exfalso. unfold in_the_past in Hp. rewrite He in Hp. lia. }
  split; [| done].
  unfold len. simpl. lia.
Qed.

Lemma active_completed_counts_witness :
  ev_date (event_at now_sample) = Some now_sample
  /\ activeEvents (stats now_sample (Some [event_at now_sample; event_at (now_sample - day)]))
     = (1 + activeEvents (stats now_sample (Some [event_at (now_sample - day)])))%Z.
Proof.
  split; [reflexivity |].
  apply (active_completed_counts now_sample (Some [event_at (now_sample - day)])).
  reflexivity.
Defined.

(** C7. [totalVolunteers] is the sum of [current_volunteers] over all
    events of the collection, a [null] counter adding nothing. *)
Theorem totalVolunteers_is_sum (now : Z) (events : option (list Event)) :
  totalVolunteers (stats now events)
  = foldr Z.add 0%Z
      ((fun e => default 0%Z (ev_current_volunteers e)) <$> default [] events).
Proof.
  unfold stats; simpl. rewrite or_zero_fmap by done.
  rewrite fold_left_volunteers. lia.
Qed.

(** C10. [getEventRegistrations] returns a list for every event id and
    every state of the registrations query: the empty list while the
    query is disabled, pending or failed, and otherwise the cached
    registrations of that event. *)
Theorem getEventRegistrations_total (eventId : string) :
  getEventRegistrations (QueryCache.data_of QueryCache.Disabled) eventId = []
  /\ getEventRegistrations (QueryCache.data_of QueryCache.Pending) eventId = []
  /\ (forall error,
        getEventRegistrations (QueryCache.data_of (QueryCache.Failed error)) eventId = [])
  /\ (forall regs,
        getEventRegistrations (QueryCache.data_of (QueryCache.Success regs)) eventId
        = filter (fun reg => reg_event_id reg = eventId) regs).
Proof.
  repeat split; try done.
  intros regs. simpl. rewrite <- filter_bool_decide.
  apply List.filter_ext. intros reg.
  destruct (String.eqb_spec (reg_event_id reg) eventId).
  - by rewrite bool_decide_eq_true_2.
  - by rewrite bool_decide_eq_false_2.
Qed.

End AggregationProperties.

(** ** The session store *)

Section AuthProperties.
Import Js Eff Auth.

(** Unfolds an operation of the context down to its state changes. *)
Ltac run_auth :=
  unfold new_calls, step, perform, signUp, signIn, signOut, getSession_then,
    onAuthStateChange, handleAuthError, setUser, setLoading, call, try_catch,
    exec, modify, throw, mbind, M_bind, bind, mret, M_ret, ret;
  simpl.

Lemma drop_length_app {A} (l k : list A) : drop (length l) (l ++ k) = k.
Proof. by rewrite drop_app_length. Qed.

Lemma signOut_calls idp s :
  new_calls (signOut idp) s
  = AuthSignOut ::
      match signOut_error idp with
      | None => [Navigate "/login"]
      | Some e => [ToastError (message e)]
      end.
Proof.
  run_auth. destruct (signOut_error idp); simpl;
    rewrite <- app_assoc; apply drop_length_app.
Qed.

(** C3, as stated, fails: when the remote sign-out returns an error,
    [signOut] makes the call, reports the error, and does not
    navigate. *)
Lemma signOut_failure_counterexample :
  new_calls (signOut idp_sign_out_fails) initial
    = [AuthSignOut; ToastError "Failed to fetch"]
  /\ Navigate "/login" ∉ new_calls (signOut idp_sign_out_fails) initial.
Proof.
  split; [reflexivity |].
  rewrite signOut_calls. simpl.
  intros H. repeat (apply elem_of_cons in H as [H|H]; [discriminate H |]).
  by apply elem_of_nil in H.
Qed.

(** C3, amended. [signOut] navigates to the login route exactly when
    the remote sign-out call succeeds; when that call fails, the error
    is reported through [handleAuthError] and no navigation is
    requested. *)
Theorem signOut_navigates_iff_success (idp : IdentityProvider) (s : State) :
  Navigate "/login" ∈ new_calls (signOut idp) s <-> signOut_error idp = None.
Proof.
  rewrite signOut_calls. destruct (signOut_error idp) as [e|]; split; try done.
  - intros H. repeat (apply elem_of_cons in H as [H|H]; [discriminate H |]).
    by apply elem_of_nil in H.
  - intros _. apply elem_of_cons; right. apply elem_of_cons; by left.
Qed.

Lemma signOut_navigates_iff_success_witness :
  signOut_error idp_accepts = None
  /\ Navigate "/login" ∈ new_calls (signOut idp_accepts) initial.
Proof.
  split; [reflexivity |].
  apply (signOut_navigates_iff_success idp_accepts initial). reflexivity.
Defined.

(** C6. A successful [signUp] (the provider returns a user and no
    error, and the sign-in that follows returns no error) signs the new
    identity in with the same credentials, then waits 1500 ms, and only
    then runs the post-auth routing. *)
Theorem signUp_success_calls (idp : IdentityProvider) (email password : string)
    (role : UserRole) (u : User) (s : State) :
  signUp_response idp email password role = {| data_user := Some u; error := None |} ->
  error (signInWithPassword_response idp email password) = None ->
  new_calls (signUp idp email password role) s
  = [AuthSignUp email password role;
     AuthSignInWithPassword email password;
     SetTimeout 1500]
    ++ (if truthy_string (user_id u)
        then [HandleAuthNavigation (user_id u);
              ToastSuccess "Account created and logged in successfully!"]
        else []).
Proof.
  intros Hup Hin. run_auth. rewrite Hup. simpl. rewrite Hin. simpl.
  destruct (truthy_string (user_id u)); simpl;
    rewrite <- ?app_assoc; apply drop_length_app.
Qed.

Lemma signUp_success_calls_witness :
  new_calls (signUp idp_accepts "ana@example.org" "s3cret!" Volunteer) initial
  = [AuthSignUp "ana@example.org" "s3cret!" Volunteer;
     AuthSignInWithPassword "ana@example.org" "s3cret!";
     SetTimeout 1500;
     HandleAuthNavigation "u-1";
     ToastSuccess "Account created and logged in successfully!"].
Proof.
  apply (signUp_success_calls idp_accepts "ana@example.org" "s3cret!" Volunteer
           {| user_id := "u-1" |} initial); reflexivity.
Defined.

Lemma step_loading (s : State) (a : Action) :
  loading (step s a) = if resolves_session a then false else loading s.
Proof.
  destruct a as [session|ev session|idp email password role|idp email password|idp].
  - run_auth. by destruct session.
  - run_auth. by destruct session.
  - run_auth. destruct (signUp_response idp email password role) as [[u|] [e|]]; simpl; try done.
    destruct (error (signInWithPassword_response idp email password)); simpl; try done.
    by destruct (truthy_string (user_id u)).
  - run_auth. destruct (signInWithPassword_response idp email password) as [[u|] [e|]];
      simpl; try done.
    by destruct (truthy_string (user_id u)).
  - run_auth. by destruct (signOut_error idp).
Qed.

Lemma run_loading (actions : list Action) (s : State) :
  loading (run actions s) = loading s && negb (existsb resolves_session actions).
Proof.
  revert s. induction actions as [|a actions IH]; intros s; simpl.
  - by rewrite andb_true_r.
  - unfold run in IH. rewrite IH, step_loading.
    destruct (resolves_session a); simpl; [| done].
    by rewrite andb_false_r.
Qed.

(** C8. [loading] is true only during the initial restore: it is true
    at the start, it is false after the restore completes and after
    every identity-change notification, and no later operation sets it
    back to true; so at any time it is true exactly when neither the
    restore nor a notification has been processed yet. *)
Theorem loading_only_during_restore (actions : list Action) :
  loading (run actions initial) = negb (existsb resolves_session actions)
  /\ (forall s a, resolves_session a = true -> loading (step s a) = false)
  /\ (forall s a, loading s = false -> loading (step s a) = false).
Proof.
  split; [by rewrite run_loading |].
  split; intros s a H; rewrite step_loading.
  - by rewrite H.
  - rewrite H. by destruct (resolves_session a).
Qed.

Lemma loading_only_during_restore_witness :
  loading (step initial (SessionRestored None)) = false
  /\ loading (step (step initial (AuthStateChanged "SIGNED_IN" None))
                   (SignUp idp_accepts "ana@example.org" "s3cret!" Volunteer)) = false.
Proof.
  split.
  - apply (proj1 (proj2 (loading_only_during_restore []))). reflexivity.
  - apply (proj2 (proj2 (loading_only_during_restore []))). reflexivity.
Defined.

End AuthProperties.

(** ** The registrations fetch *)

Section FetchProperties.
Import Js Eff Dashboard.

(** C5, as stated, fails: after a failed email lookup the rows come
    back as they were fetched, with no [user_email] property; the field
    reads as [undefined], it is not [null]. *)
Lemma email_failure_not_null_counterexample :
  registrationsQueryFn store_email_lookup_fails (Some [event_at now_sample]) world_empty
    = (Ok [plain (row_sample "r-1" "1" (Some "u-1")); plain (row_sample "r-2" "1" None)],
       console (ConsoleError "Error fetching user emails:"
                  (PostgrestError "permission denied for table users")) world_empty)
  /\ reg_user_email (plain (row_sample "r-1" "1" (Some "u-1"))) = VUndefined
  /\ reg_user_email (plain (row_sample "r-1" "1" (Some "u-1"))) <> VNull.
Proof. split; [reflexivity |]. split; [reflexivity | discriminate]. Qed.

(** C5, amended. When the batched email lookup of a registrations
    fetch fails, the fetch does not fail: it returns every fetched row,
    in order and as fetched, so that the [user_email] field of each is
    absent ([undefined], not [null]); and the failure is logged on the
    console. *)
Theorem registrations_survive_email_failure (db : Store) (evs : list Event)
    (data : list RegistrationRow) (emailError : Exn) (w : World) :
  evs <> [] ->
  select_registrations db (ev_id <$> evs) = Data data ->
  filter_Boolean (row_user_id <$> data) <> [] ->
  select_emails db (filter_Boolean (row_user_id <$> data)) = Error emailError ->
  exists (regs : list Registration) (w' : World),
    registrationsQueryFn db (Some evs) w = (Ok regs, w')
    /\ reg_row <$> regs = data
    /\ Forall (fun reg => reg_user_email reg = VUndefined) regs
    /\ w_console w' = w_console w ++ [ConsoleError "Error fetching user emails:" emailError].
Proof.
  intros Hevs Hregs Hids Hemails.
  exists (plain <$> data), (console (ConsoleError "Error fetching user emails:" emailError) w).
  split; [| split; [| split]].
  - unfold registrationsQueryFn. destruct evs as [|e evs]; [done |].
    rewrite Hregs.
    destruct (filter_Boolean (row_user_id <$> data)) as [|i ids] eqn:E; [done |].
    simpl. rewrite Hemails. reflexivity.
  - rewrite <- list_fmap_compose. apply list_fmap_id.
  - apply Forall_fmap, Forall_true. done.
  - reflexivity.
Qed.

Lemma registrations_survive_email_failure_witness :
  exists (regs : list Registration) (w' : World),
    registrationsQueryFn store_email_lookup_fails (Some [event_at now_sample]) world_empty
      = (Ok regs, w')
    /\ reg_row <$> regs = [row_sample "r-1" "1" (Some "u-1"); row_sample "r-2" "1" None]
    /\ Forall (fun reg => reg_user_email reg = VUndefined) regs
    /\ w_console w'
       = w_console world_empty
         ++ [ConsoleError "Error fetching user emails:"
               (PostgrestError "permission denied for table users")].
Proof.
  apply (registrations_survive_email_failure store_email_lookup_fails
           [event_at now_sample]
           [row_sample "r-1" "1" (Some "u-1"); row_sample "r-2" "1" None]
           (PostgrestError "permission denied for table users") world_empty).
  - discriminate.
  - reflexivity.
  - discriminate.
  - reflexivity.
Defined.

(** For comparison, a fetch whose lookup succeeds attaches the email
    found, and [null] to the row without a user. *)
Example registrations_enriched :
  registrationsQueryFn store_email_lookup_works (Some [event_at now_sample]) world_empty
  = (Ok [ {| reg_row := row_sample "r-1" "1" (Some "u-1");
             reg_user_email := VStr "ana@example.org" |};
          {| reg_row := row_sample "r-2" "1" None; reg_user_email := VNull |} ],
     world_empty).
Proof. reflexivity. Qed.

End FetchProperties.

(** ** Change notifications *)

Section NotificationProperties.
Import Js Eff QueryCache Realtime Dashboard.

Lemma key_matches_refl (key : QueryKey) : key_matches key key = true.
Proof.
  induction key as [|k key IH]; [done |].
  simpl. rewrite IH. by rewrite bool_decide_eq_true_2.
Qed.

Lemma lookup_invalidateQueries (filter key : QueryKey)
    (queries : gmap (list (option string)) Query) :
  invalidateQueries filter queries !! key
  = (fun q => if key_matches filter key then invalidate q else q) <$> queries !! key.
Proof.
  unfold invalidateQueries. rewrite map_lookup_imap.
  by destruct (queries !! key).
Qed.

Lemma run_handler_queries (h : Handler) (n : Change) (w : World) (key : QueryKey) :
  w_queries (run_handler h n w) !! key
  = (fun q => if handler_invalidates h key then invalidate q else q)
      <$> w_queries w !! key.
Proof.
  destruct h as [uid|uid]; unfold run_handler, handler_invalidates;
    cbn [w_queries with_queries console]; rewrite !lookup_invalidateQueries.
  - done.
  - set (a := key_matches (registrations_key (Some uid)) key).
    set (b := key_matches (events_key (Some uid)) key).
    destruct (w_queries w !! key) as [q|]; [| done].
    by destruct a, b.
Qed.

Lemma run_handler_channels (h : Handler) (n : Change) (w : World) :
  w_channels (run_handler h n w) = w_channels w.
Proof. by destruct h. Qed.

(** Delivering to a list of channels invalidates exactly the keys that
    the callback of some matching channel invalidates. *)
Lemma deliver_fold_queries (n : Change) (cs : list Channel) (w : World) (key : QueryKey) :
  w_queries
    (fold_left (fun w c => if binding_matches c n then run_handler (ch_handler c) n w else w)
               cs w) !! key
  = (fun q =>
       if existsb (fun c => binding_matches c n && handler_invalidates (ch_handler c) key) cs
       then invalidate q else q) <$> w_queries w !! key.
Proof.
  revert w. induction cs as [|c cs IH]; intros w; simpl.
  - by destruct (w_queries w !! key).
  - rewrite IH. destruct (binding_matches c n); simpl; [| done].
    rewrite run_handler_queries.
    destruct (w_queries w !! key) as [q|]; [| done]. simpl.
    destruct (handler_invalidates (ch_handler c) key); simpl; [| done].
    by destruct (existsb _ cs).
Qed.

Lemma deliver_invalidates (n : Change) (c : Channel) (w : World) (key : QueryKey) :
  c ∈ w_channels w ->
  binding_matches c n = true ->
  handler_invalidates (ch_handler c) key = true ->
  w_queries (deliver n w) !! key = invalidate <$> w_queries w !! key.
Proof.
  intros Hc Hm Hk. unfold deliver. rewrite deliver_fold_queries.
  assert (existsb (fun c => binding_matches c n && handler_invalidates (ch_handler c) key)
                  (w_channels w) = true) as ->; [| done].
  apply existsb_exists. exists c. split; [by apply list_elem_of_In |].
  by rewrite Hm, Hk.
Qed.

(** The channel the first effect opens. *)
Lemma events_effect_channel (user : option User) (w w' : World) (c : Channel) :
  events_effect user w = (w', Some c) ->
  exists u, user = Some u
    /\ c = {| ch_id := w_next_channel w; ch_name := "organization-events-changes";
              ch_schema := "public"; ch_table := "events";
              ch_filter := FEq "organization_id" (user_id u);
              ch_handler := OnEventsChange (user_id u) |}.
Proof.
  unfold events_effect. destruct user as [u|]; [| done].
  simpl. intros [= _ <-]. by exists u.
Qed.

(** The channel the second effect opens. *)
Lemma registrations_effect_channel (user : option User) (events : option (list Event))
    (w w' : World) (c : Channel) :
  registrations_effect user events w = (w', Some c) ->
  exists u evs, user = Some u /\ events = Some evs /\ evs <> []
    /\ c = {| ch_id := w_next_channel w; ch_name := "registrations-changes";
              ch_schema := "public"; ch_table := "registrations";
              ch_filter := FIn "event_id" (ev_id <$> evs);
              ch_handler := OnRegistrationsChange (user_id u) |}.
Proof.
  unfold registrations_effect.
  destruct user as [u|]; [| done]. destruct events as [evs|]; [| done].
  destruct evs as [|e evs]; [done |].
  simpl. intros [= _ <-]. by exists u, (e :: evs).
Qed.

(** C2. Whenever a change notification matches the binding of an open
    channel of the dashboard: if the channel is the one the
    registrations effect opened, the organization's registrations query
    and its events query are both invalidated; if it is the one the
    events effect opened, the organization's events query is
    invalidated. *)
Theorem notification_invalidates_queries (u : User) (events : option (list Event))
    (w0 w1 w : World) (c : Channel) (n : Change) :
  c ∈ w_channels w ->
  binding_matches c n = true ->
  (registrations_effect (Some u) events w0 = (w1, Some c) ->
     chg_table n = "registrations"
     /\ w_queries (deliver n w) !! registrations_key (Some (user_id u))
        = invalidate <$> w_queries w !! registrations_key (Some (user_id u))
     /\ w_queries (deliver n w) !! events_key (Some (user_id u))
        = invalidate <$> w_queries w !! events_key (Some (user_id u)))
  /\ (events_effect (Some u) w0 = (w1, Some c) ->
     chg_table n = "events"
     /\ w_queries (deliver n w) !! events_key (Some (user_id u))
        = invalidate <$> w_queries w !! events_key (Some (user_id u))).
Proof.
  intros Hopen Hmatch. split; intros Heff.
  - apply registrations_effect_channel in Heff
      as (u' & evs & [= <-] & _ & _ & Hc).
    assert (ch_table c = "registrations") as Ht by (by subst c).
    assert (ch_handler c = OnRegistrationsChange (user_id u)) as Hh by (by subst c).
    split; [| split].
    + unfold binding_matches in Hmatch.
      apply andb_true_iff in Hmatch as [Hmatch _].
      apply andb_true_iff in Hmatch as [_ Hmatch].
      apply String.eqb_eq in Hmatch. congruence.
    + apply (deliver_invalidates n c); [done | done |].
      rewrite Hh. unfold handler_invalidates.
      by rewrite key_matches_refl.
    + apply (deliver_invalidates n c); [done | done |].
      rewrite Hh. unfold handler_invalidates.
      rewrite (key_matches_refl (events_key _)). apply orb_true_r.
  - apply events_effect_channel in Heff as (u' & [= <-] & Hc).
    assert (ch_table c = "events") as Ht by (by subst c).
    assert (ch_handler c = OnEventsChange (user_id u)) as Hh by (by subst c).
    split.
    + unfold binding_matches in Hmatch.
      apply andb_true_iff in Hmatch as [Hmatch _].
      apply andb_true_iff in Hmatch as [_ Hmatch].
      apply String.eqb_eq in Hmatch. congruence.
    + apply (deliver_invalidates n c); [done | done |].
      rewrite Hh. unfold handler_invalidates. apply key_matches_refl.
Qed.

Lemma notification_invalidates_queries_witness :
  q_isInvalidated
    <$> w_queries (deliver registration_inserted world_subscribed)
          !! registrations_key (Some "org-1") = Some true
  /\ q_isInvalidated
    <$> w_queries (deliver registration_inserted world_subscribed)
          !! events_key (Some "org-1") = Some true.
Proof.
  assert (registrations_channel ∈ w_channels world_subscribed) as Hopen.
  { vm_compute. left. }
  assert (binding_matches registrations_channel registration_inserted = true) as Hmatch.
  { vm_compute. reflexivity. }
  destruct (proj1 (notification_invalidates_queries org_user
                     (Some [event_at now_sample]) world_cached world_subscribed
                     world_subscribed registrations_channel registration_inserted
                     Hopen Hmatch) eq_refl) as (_ & Hr & He).
  split.
  - change (Some "org-1") with (Some (user_id org_user)). rewrite Hr. reflexivity.
  - change (Some "org-1") with (Some (user_id org_user)). rewrite He. reflexivity.
Defined.

(** A deleted event of the organization reaches the events channel
    and invalidates the events query only. *)
Example event_deleted_invalidates_events :
  let w := deliver event_deleted world_events_subscribed in
  q_isInvalidated <$> w_queries w !! events_key (Some "org-1") = Some true
  /\ q_isInvalidated <$> w_queries w !! registrations_key (Some "org-1") = Some false.
Proof. split; reflexivity. Qed.

(** A change for an event that is not in the filter is not delivered. *)
Example other_event_not_delivered :
  let n := {| chg_type := INSERT; chg_schema := "public"; chg_table := "registrations";
              chg_row := {[ "event_id" := "7" ]} |} in
  binding_matches registrations_channel n = false
  /\ w_queries (deliver n world_subscribed) = w_queries world_subscribed.
Proof. split; reflexivity. Qed.

End NotificationProperties.

(** ** Channel lifecycle *)

Section LifecycleProperties.
Import Js Eff QueryCache Realtime Dashboard View.

Lemma run_cleanup_spec (o : option Channel) (w : World) :
  w_channels (run_cleanup o w)
    = List.filter (fun c => negb (bool_decide (Some (ch_id c) = ch_id <$> o))) (w_channels w)
  /\ w_realtime (run_cleanup o w) = w_realtime w ++ (Removed <$> option_list o)
  /\ w_next_channel (run_cleanup o w) = w_next_channel w.
Proof.
  destruct o as [c|]; simpl.
  - split; [| done]. apply List.filter_ext. intros c'. f_equal.
    destruct (Nat.eqb_spec (ch_id c') (ch_id c)) as [->|Hne].
    + by rewrite bool_decide_eq_true_2.
    + rewrite bool_decide_eq_false_2; [done | congruence].
  - split; [| by rewrite app_nil_r].
    induction (w_channels w) as [|c l IH]; [done |].
    simpl. by f_equal.
Qed.

Lemma events_effect_spec user w :
  effect_spec "events" w (events_effect user w).1 (events_effect user w).2.
Proof.
  unfold effect_spec, events_effect. destruct user as [u|]; simpl.
  - split; [done |]. split; [done |]. split; [lia |].
    intros ? [= <-]. done.
  - rewrite !app_nil_r. split; [done |]. split; [done |]. split; [lia | done].
Qed.

Lemma registrations_effect_spec user events w :
  effect_spec "registrations" w (registrations_effect user events w).1
              (registrations_effect user events w).2.
Proof.
  unfold effect_spec, registrations_effect.
  destruct user as [u|], events as [[|e evs]|]; simpl; rewrite ?app_nil_r;
    (split; [done |]; split; [done |]; split; [lia |]);
    try done; intros ? [= <-]; done.
Qed.

Lemma deps_changed_false {D} `{EqDecision D} (prev : option D) (next : D) :
  deps_changed prev next = false <-> prev = Some next.
Proof.
  unfold deps_changed. destruct prev as [d|]; [| done].
  rewrite negb_false_iff, bool_decide_eq_true. split; congruence.
Qed.

(** The events effect never runs again without the registrations
    effect: every dependency of the first is one of the second. *)
Lemma rerun_events_rerun_registrations (h : Hooks) (p : Props) :
  events_deps h = fst <$> registrations_deps h ->
  deps_changed (registrations_deps h) (p_user p, p_events p) = false ->
  deps_changed (events_deps h) (p_user p) = false.
Proof.
  intros Hdeps Hr. apply deps_changed_false in Hr.
  apply deps_changed_false. by rewrite Hdeps, Hr.
Qed.

Lemma cleanup_both (h : Hooks) (w : World) :
  w_channels w = cleanups h ->
  w_channels (run_cleanup (registrations_cleanup h) (run_cleanup (events_cleanup h) w)) = [].
Proof.
  unfold cleanups. intros Hopen.
  destruct (events_cleanup h) as [c1|], (registrations_cleanup h) as [c2|];
    simpl in *; rewrite Hopen; simpl; rewrite ?Nat.eqb_refl; simpl; try done.
  - destruct (ch_id c2 =? ch_id c1); simpl; [done |]. by rewrite Nat.eqb_refl.
Qed.

Lemma cleanup_registrations (h : Hooks) (w : World) :
  w_channels w = cleanups h ->
  (forall c1 c2, events_cleanup h = Some c1 -> registrations_cleanup h = Some c2 ->
     ch_id c1 <> ch_id c2) ->
  w_channels (run_cleanup (registrations_cleanup h) w) = option_list (events_cleanup h).
Proof.
  unfold cleanups. intros Hopen Hdist.
  destruct (events_cleanup h) as [c1|], (registrations_cleanup h) as [c2|];
    simpl in *; rewrite ?Hopen; simpl; rewrite ?Nat.eqb_refl; simpl; try done.
  destruct (Nat.eqb_spec (ch_id c1) (ch_id c2)) as [E|_]; [| done].
  by destruct (Hdist c1 c2).
Qed.

Lemma view_inv_initial (w0 : World) : w_channels w0 = [] -> view_inv (unmounted, w0).
Proof.
  intros H. split; simpl; try done.
  rewrite H. intros c Hc. by apply elem_of_nil in Hc.
Qed.

Lemma commit_inv (heap : Heap) (p : Props) (s : Hooks * World) :
  view_inv s -> view_inv (commit heap p s).
Proof.
  destruct s as [h w]. intros [Hopen Hfresh Hdist Hev Hreg Hdeps]. simpl in *.
  unfold commit.
  pose proof (rerun_events_rerun_registrations h p Hdeps) as Hre.
  destruct (deps_changed (registrations_deps h) (p_user p, p_events p)) eqn:Er.
  - destruct (deps_changed (events_deps h) (p_user p)) eqn:Ee.
    + (* both effects run again *)
      pose proof (cleanup_both h w Hopen) as Hc.
      destruct (run_cleanup_spec (events_cleanup h) w) as (_ & _ & Hn1).
      destruct (run_cleanup_spec (registrations_cleanup h)
                  (run_cleanup (events_cleanup h) w)) as (_ & _ & Hn2).
      set (w1 := run_cleanup (registrations_cleanup h) (run_cleanup (events_cleanup h) w)) in *.
      pose proof (events_effect_spec (deref_user heap <$> p_user p) w1) as S1.
      destruct (events_effect (deref_user heap <$> p_user p) w1) as [w2 o1].
      pose proof (registrations_effect_spec (deref_user heap <$> p_user p)
                    (deref_events heap <$> p_events p) w2) as S2.
      destruct (registrations_effect _ _ w2) as [w3 o2].
      destruct S1 as (C1 & _ & N1 & I1), S2 as (C2 & _ & N2 & I2). simpl in *.
      split; simpl.
      * unfold cleanups; simpl. by rewrite C2, C1, Hc.
      * intros c. rewrite C2, C1, Hc. simpl. rewrite elem_of_app.
        intros [Hin|Hin].
        -- destruct o1 as [c1|]; [| by apply elem_of_nil in Hin].
           apply list_elem_of_singleton in Hin as ->.
           destruct (I1 c1 eq_refl) as [-> _]. simpl in *. lia.
        -- destruct o2 as [c2|]; [| by apply elem_of_nil in Hin].
           apply list_elem_of_singleton in Hin as ->.
           destruct (I2 c2 eq_refl) as [-> _]. simpl in *. lia.
      * intros c1 c2 -> ->.
        destruct (I1 c1 eq_refl) as [-> _], (I2 c2 eq_refl) as [-> _].
        simpl in *. lia.
      * intros c ->. by destruct (I1 c eq_refl).
      * intros c ->. by destruct (I2 c eq_refl).
      * done.
    + (* only the registrations effect runs again *)
      pose proof (cleanup_registrations h w Hopen Hdist) as Hc.
      destruct (run_cleanup_spec (registrations_cleanup h) w) as (_ & _ & Hn1).
      set (w1 := run_cleanup (registrations_cleanup h) w) in *.
      pose proof (registrations_effect_spec (deref_user heap <$> p_user p)
                    (deref_events heap <$> p_events p) w1) as S2.
      destruct (registrations_effect _ _ w1) as [w3 o2].
      destruct S2 as (C2 & _ & N2 & I2). simpl in *.
      assert (forall c, events_cleanup h = Some c -> ch_id c < w_next_channel w) as Hlt.
      { intros c Hc1. apply Hfresh. rewrite Hopen. unfold cleanups. rewrite Hc1.
        rewrite elem_of_app; left. by apply list_elem_of_singleton. }
      split; simpl.
      * unfold cleanups; simpl. by rewrite C2, Hc.
      * intros c. rewrite C2, Hc. rewrite elem_of_app.
        intros [Hin|Hin].
        -- destruct (events_cleanup h) as [c1|] eqn:E1; [| by apply elem_of_nil in Hin].
           apply list_elem_of_singleton in Hin as ->.
           specialize (Hlt c1 eq_refl). lia.
        -- destruct o2 as [c2|]; [| by apply elem_of_nil in Hin].
           apply list_elem_of_singleton in Hin as ->.
           destruct (I2 c2 eq_refl) as [-> _]. simpl in *. lia.
      * intros c1 c2 Hc1 ->. specialize (Hlt c1 Hc1).
        destruct (I2 c2 eq_refl) as [-> _]. lia.
      * done.
      * intros c ->. by destruct (I2 c eq_refl).
      * done.
  - (* no effect runs again *)
    rewrite (Hre eq_refl). split; simpl; try done.
Qed.

Lemma unmount_inv (s : Hooks * World) : view_inv s -> view_inv (unmount s).
Proof.
  destruct s as [h w]. intros [Hopen Hfresh _ _ _ _]. simpl in *.
  pose proof (cleanup_both h w Hopen) as Hc.
  split; simpl; try done.
  rewrite Hc. intros c Hin. by apply elem_of_nil in Hin.
Qed.

Lemma deliver_fold_realtime (n : Change) (cs : list Channel) (w : World) :
  let w' := fold_left (fun w c =>
              if binding_matches c n then run_handler (ch_handler c) n w else w) cs w in
  w_channels w' = w_channels w
  /\ w_next_channel w' = w_next_channel w
  /\ w_realtime w' = w_realtime w.
Proof.
  revert w. induction cs as [|c cs IH]; intros w; simpl; [done |].
  destruct (IH (if binding_matches c n then run_handler (ch_handler c) n w else w))
    as (-> & -> & ->).
  destruct (binding_matches c n); [| done]. by destruct (ch_handler c).
Qed.

(** A notification changes neither the channels nor the requests made
    on the realtime client. *)
Lemma deliver_realtime (n : Change) (w : World) :
  w_channels (deliver n w) = w_channels w
  /\ w_next_channel (deliver n w) = w_next_channel w
  /\ w_realtime (deliver n w) = w_realtime w.
Proof. apply deliver_fold_realtime. Qed.

Lemma notify_inv (n : Change) (s : Hooks * World) :
  view_inv s -> view_inv (s.1, deliver n s.2).
Proof.
  destruct s as [h w]. intros [Hopen Hfresh Hdist Hev Hreg Hdeps]. simpl in *.
  destruct (deliver_realtime n w) as (Hc & Hn & _).
  split; simpl; rewrite ?Hc, ?Hn; done.
Qed.

Lemma step_inv (heap : Heap) (s : Hooks * World) (e : Step) :
  view_inv s -> view_inv (step heap s e).
Proof.
  destruct e as [p| |n]; simpl.
  - apply commit_inv.
  - apply unmount_inv.
  - apply notify_inv.
Qed.

Lemma run_inv (heap : Heap) (es : list Step) (s : Hooks * World) :
  view_inv s -> view_inv (run heap es s).
Proof.
  revert s. induction es as [|e es IH]; intros s Hs; [done |].
  simpl. apply IH. by apply step_inv.
Qed.

Lemma reachable_inv (heap : Heap) (s : Hooks * World) :
  reachable heap s -> view_inv s.
Proof.
  intros (w0 & es & H0 & ->). apply run_inv. by apply view_inv_initial.
Qed.

(** With the invariant, at most one open channel is bound to any one
    table. *)
Lemma one_channel_per_table (s : Hooks * World) (table : string) :
  view_inv s ->
  length (List.filter (fun c => bool_decide (ch_table c = table)) (w_channels s.2)) <= 1.
Proof.
  destruct s as [h w]. intros [Hopen _ _ Hev Hreg _]. simpl in *.
  rewrite Hopen. unfold cleanups.
  destruct (events_cleanup h) as [c1|], (registrations_cleanup h) as [c2|]; simpl;
    repeat case_bool_decide; simpl; try lia.
  specialize (Hev c1 eq_refl). specialize (Hreg c2 eq_refl). congruence.
Qed.

(** A commit in which the registrations effect runs again while its
    channel [c] is open: [c] is removed before anything is subscribed,
    it is no longer open afterwards, and a registrations channel that
    is open afterwards was subscribed in this commit, with the filter
    of the event ids of this render. *)
Lemma commit_registrations_rerun (heap : Heap) (p : Props) (h : Hooks) (w : World)
    (c : Channel) :
  view_inv (h, w) ->
  deps_changed (registrations_deps h) (p_user p, p_events p) = true ->
  registrations_cleanup h = Some c ->
  exists closed opened : list Channel,
    w_realtime (snd (commit heap p (h, w)))
      = w_realtime w ++ (Removed <$> closed) ++ (Subscribed <$> opened)
    /\ c ∈ closed
    /\ (c ∉ w_channels (snd (commit heap p (h, w))))
    /\ (forall c', c' ∈ w_channels (snd (commit heap p (h, w))) ->
         ch_table c' = "registrations" ->
         c' ∈ opened
         /\ exists ids, event_ids heap (p_events p) = Some ids
                        /\ ch_filter c' = FIn "event_id" ids)
    /\ (forall a ids, p_user p = Some a ->
         event_ids heap (p_events p) = Some ids -> ids <> [] ->
         exists c', c' ∈ opened
           /\ c' ∈ w_channels (snd (commit heap p (h, w)))
           /\ ch_table c' = "registrations"
           /\ ch_filter c' = FIn "event_id" ids
           /\ ch_handler c' = OnRegistrationsChange (user_id (deref_user heap a))).
Proof.
  intros [Hopen Hfresh Hdist Hev Hreg Hdeps] Er Hc. simpl in *.
  assert (ch_id c < w_next_channel w) as Hold.
  { apply Hfresh. rewrite Hopen. unfold cleanups. rewrite Hc.
    rewrite elem_of_app; right. by apply list_elem_of_singleton. }
  assert (forall (w2 w3 : World) (c' : Channel),
            registrations_effect (deref_user heap <$> p_user p)
              (deref_events heap <$> p_events p) w2 = (w3, Some c') ->
            exists ids, event_ids heap (p_events p) = Some ids
                        /\ ch_filter c' = FIn "event_id" ids) as Hfilter.
  { intros w2 w3 c' E. apply registrations_effect_channel in E
      as (u & evs & _ & Hevs & _ & ->).
    unfold event_ids. destruct (p_events p) as [a|]; [| done].
    simpl in *. injection Hevs as <-. by eexists. }
  assert (forall (a : nat) (ids : list string) (w2 : World),
            p_user p = Some a ->
            event_ids heap (p_events p) = Some ids -> ids <> [] ->
            exists c',
              snd (registrations_effect (deref_user heap <$> p_user p)
                     (deref_events heap <$> p_events p) w2) = Some c'
              /\ ch_table c' = "registrations"
              /\ ch_filter c' = FIn "event_id" ids
              /\ ch_handler c' = OnRegistrationsChange (user_id (deref_user heap a)))
    as Hopens.
  { intros a ids w2 Hu Hids Hne. rewrite Hu. unfold event_ids in Hids.
    destruct (p_events p) as [b|]; [| done]. simpl in Hids. injection Hids as <-.
    unfold registrations_effect. simpl.
    destruct (deref_events heap b) as [|ev evs]; [done |].
    simpl. eexists. split; [reflexivity |]. done. }
  unfold commit. rewrite Er.
  destruct (deps_changed (events_deps h) (p_user p)) eqn:Ee.
  - pose proof (cleanup_both h w Hopen) as Hcl.
    destruct (run_cleanup_spec (events_cleanup h) w) as (_ & R1 & Hn1).
    destruct (run_cleanup_spec (registrations_cleanup h)
                (run_cleanup (events_cleanup h) w)) as (_ & R2 & Hn2).
    set (w1 := run_cleanup (registrations_cleanup h) (run_cleanup (events_cleanup h) w)) in *.
    pose proof (events_effect_spec (deref_user heap <$> p_user p) w1) as S1.
    destruct (events_effect (deref_user heap <$> p_user p) w1) as [w2 o1].
    pose proof (registrations_effect_spec (deref_user heap <$> p_user p)
                  (deref_events heap <$> p_events p) w2) as S2.
    destruct (registrations_effect _ _ w2) as [w3 o2] eqn:E2.
    destruct S1 as (C1 & T1 & N1 & I1), S2 as (C2 & T2 & N2 & I2). simpl in *.
    exists (option_list (events_cleanup h) ++ [c]), (option_list o1 ++ option_list o2).
    split; [| split; [| split; [| split]]].
    + rewrite T2, T1, R2, R1, Hc. simpl. rewrite !fmap_app, <- !app_assoc. done.
    + rewrite elem_of_app; right. by apply list_elem_of_singleton.
    + rewrite C2, C1, Hcl. simpl. rewrite elem_of_app. intros [Hin|Hin].
      * destruct o1 as [c1|]; [| by apply elem_of_nil in Hin].
        apply list_elem_of_singleton in Hin as <-.
        destruct (I1 c eq_refl) as [Hid _]. lia.
      * destruct o2 as [c2|]; [| by apply elem_of_nil in Hin].
        apply list_elem_of_singleton in Hin as <-.
        destruct (I2 c eq_refl) as [Hid _]. simpl in *. lia.
    + intros c'. rewrite C2, C1, Hcl. simpl. rewrite elem_of_app. intros [Hin|Hin] Ht.
      * destruct o1 as [c1|]; [| by apply elem_of_nil in Hin].
        apply list_elem_of_singleton in Hin as ->.
        destruct (I1 c1 eq_refl) as [_ Ht1]. congruence.
      * destruct o2 as [c2|]; [| by apply elem_of_nil in Hin].
        apply list_elem_of_singleton in Hin as ->.
        split; [| by apply (Hfilter w2 w3)].
        right. by apply list_elem_of_singleton.
    + intros a ids Hu Hids Hne.
      destruct (Hopens a ids w2 Hu Hids Hne) as (c' & Hsnd & Ht & Hf & Hh).
      rewrite E2 in Hsnd. cbn [snd] in Hsnd. subst o2. exists c'.
      split; [rewrite elem_of_app; right; by apply list_elem_of_singleton |].
      split; [| done].
      rewrite C2, elem_of_app. right. by apply list_elem_of_singleton.
  - pose proof (cleanup_registrations h w Hopen Hdist) as Hcl.
    destruct (run_cleanup_spec (registrations_cleanup h) w) as (_ & R1 & Hn1).
    set (w1 := run_cleanup (registrations_cleanup h) w) in *.
    pose proof (registrations_effect_spec (deref_user heap <$> p_user p)
                  (deref_events heap <$> p_events p) w1) as S2.
    destruct (registrations_effect _ _ w1) as [w3 o2] eqn:E2.
    destruct S2 as (C2 & T2 & N2 & I2). simpl in *.
    exists [c], (option_list o2).
    split; [| split; [| split; [| split]]].
    + rewrite T2, R1, Hc. simpl. by rewrite <- app_assoc.
    + by apply list_elem_of_singleton.
    + rewrite C2, Hcl. rewrite elem_of_app. intros [Hin|Hin].
      * destruct (events_cleanup h) as [c1|] eqn:E1; [| by apply elem_of_nil in Hin].
        apply list_elem_of_singleton in Hin as <-.
        by destruct (Hdist c c eq_refl Hc).
      * destruct o2 as [c2|]; [| by apply elem_of_nil in Hin].
        apply list_elem_of_singleton in Hin as <-.
        destruct (I2 c eq_refl) as [Hid _]. lia.
    + intros c'. rewrite C2, Hcl. rewrite elem_of_app. intros [Hin|Hin] Ht.
      * destruct (events_cleanup h) as [c1|] eqn:E1; [| by apply elem_of_nil in Hin].
        apply list_elem_of_singleton in Hin as ->.
        specialize (Hev c1 eq_refl). congruence.
      * destruct o2 as [c2|]; [| by apply elem_of_nil in Hin].
        apply list_elem_of_singleton in Hin as ->.
        split; [by apply list_elem_of_singleton | by apply (Hfilter w1 w3)].
    + intros a ids Hu Hids Hne.
      destruct (Hopens a ids w1 Hu Hids Hne) as (c' & Hsnd & Ht & Hf & Hh).
      rewrite E2 in Hsnd. cbn [snd] in Hsnd. subst o2. exists c'.
      split; [by apply list_elem_of_singleton |].
      split; [| done].
      rewrite C2, elem_of_app. right. by apply list_elem_of_singleton.
Qed.

(** C9. In every state a view reaches by renders, unmounts and
    notifications, at most one channel is open per (table, filter)
    pair; and when a render brings a changed set of event ids while the
    registrations channel [c] is open, the commit first removes [c],
    then subscribes: all removals precede all subscriptions, [c] is no
    longer open afterwards, the only registrations channel that can be
    open afterwards is one subscribed in this commit with the filter of
    the new ids, and, when the render has a user and the new id set is
    not empty, such a replacement is subscribed and open. *)
Theorem channel_lifecycle (heap : Heap) (s : Hooks * World) :
  reachable heap s ->
  (forall table filter, length (open_on table filter (snd s)) <= 1)
  /\ (forall (p : Props) (c : Channel) (u e_old : option nat),
        registrations_cleanup (fst s) = Some c ->
        registrations_deps (fst s) = Some (u, e_old) ->
        event_ids heap (p_events p) <> event_ids heap e_old ->
        exists closed opened : list Channel,
          w_realtime (snd (commit heap p s))
            = w_realtime (snd s) ++ (Removed <$> closed) ++ (Subscribed <$> opened)
          /\ c ∈ closed
          /\ (c ∉ w_channels (snd (commit heap p s)))
          /\ (forall c', c' ∈ w_channels (snd (commit heap p s)) ->
               ch_table c' = "registrations" ->
               c' ∈ opened
               /\ exists ids, event_ids heap (p_events p) = Some ids
                              /\ ch_filter c' = FIn "event_id" ids)
          /\ (forall a ids, p_user p = Some a ->
               event_ids heap (p_events p) = Some ids -> ids <> [] ->
               exists c', c' ∈ opened
                 /\ c' ∈ w_channels (snd (commit heap p s))
                 /\ ch_table c' = "registrations"
                 /\ ch_filter c' = FIn "event_id" ids
                 /\ ch_handler c'
                    = OnRegistrationsChange (user_id (deref_user heap a)))).
Proof.
  intros Hr. apply reachable_inv in Hr. split.
  - intros table filter. unfold open_on.
    destruct s as [h w]. destruct Hr as [Hopen _ _ Hev Hreg _]. simpl in *.
    rewrite Hopen. unfold cleanups.
    destruct (events_cleanup h) as [c1|], (registrations_cleanup h) as [c2|]; simpl;
      repeat case_bool_decide; simpl; try lia.
    specialize (Hev c1 eq_refl). specialize (Hreg c2 eq_refl).
    destruct_and!. congruence.
  - intros p c u e_old Hc Hd Hids. destruct s as [h w]. simpl in *.
    apply commit_registrations_rerun; [done | | done].
    rewrite Hd. unfold deps_changed.
    apply negb_true_iff, bool_decide_eq_false. intros [= _ E].
    apply Hids. by rewrite E.
Qed.

Lemma channel_lifecycle_witness :
  reachable heap_sample mounted_sample
  /\ length (open_on "registrations" (FIn "event_id" ["1"; "2"]) (snd mounted_sample)) <= 1
  /\ exists closed opened : list Channel,
       w_realtime (snd (commit heap_sample render_three_events mounted_sample))
         = w_realtime (snd mounted_sample) ++ (Removed <$> closed) ++ (Subscribed <$> opened)
       /\ registrations_channel_12 ∈ closed
       /\ (registrations_channel_12
             ∉ w_channels (snd (commit heap_sample render_three_events mounted_sample)))
       /\ exists c', c' ∈ opened
            /\ c' ∈ w_channels (snd (commit heap_sample render_three_events mounted_sample))
            /\ ch_table c' = "registrations"
            /\ ch_filter c' = FIn "event_id" ["1"; "2"; "3"]
            /\ ch_handler c' = OnRegistrationsChange "org-1".
Proof.
  assert (reachable heap_sample mounted_sample) as Hr.
  { exists world_empty, [Render {| p_user := Some 0; p_events := Some 0 |}].
    split; reflexivity. }
  split; [exact Hr |]. split.
  - apply (proj1 (channel_lifecycle heap_sample mounted_sample Hr)).
  - destruct (proj2 (channel_lifecycle heap_sample mounted_sample Hr)
                render_three_events registrations_channel_12 (Some 0) (Some 0)
                eq_refl eq_refl ltac:(discriminate))
      as (closed & opened & Hlog & Hclosed & Hgone & _ & Hnew).
    exists closed, opened. split; [exact Hlog |]. split; [exact Hclosed |].
    split; [exact Hgone |].
    apply (Hnew 0 ["1"; "2"; "3"]); [reflexivity | reflexivity | discriminate].
Defined.

(** C9, the specification's example: the view mounted with events
    ["1"], ["2"] renders with events ["1"], ["2"], ["3"]; the channel
    for the old filter is removed, then one is subscribed for the new
    filter, and it is the only registrations channel open. *)
Example reopen_with_third_event :
  let s' := commit heap_sample render_three_events mounted_sample in
  drop (length (w_realtime (snd mounted_sample))) (w_realtime (snd s'))
    = [Removed registrations_channel_12;
       Subscribed {| ch_id := 2; ch_name := "registrations-changes";
                     ch_schema := "public"; ch_table := "registrations";
                     ch_filter := FIn "event_id" ["1"; "2"; "3"];
                     ch_handler := OnRegistrationsChange "org-1" |}]
  /\ ch_filter <$> List.filter (fun c => bool_decide (ch_table c = "registrations"))
                      (w_channels (snd s'))
     = [FIn "event_id" ["1"; "2"; "3"]].
Proof. split; reflexivity. Qed.

End LifecycleProperties.

(** ** More on the registrations fetch *)

Section FetchFurther.
Import Js Eff Dashboard.

(** Unfolds the fetch down to its branches. *)
Ltac run_fetch :=
  unfold registrationsQueryFn, throw, modify, mbind, M_bind, bind, mret, M_ret, ret;
  simpl.

(** X1. The registrations fetch throws exactly when there are events
    and the registrations query itself fails; it then throws that
    query's error and leaves the world as it was. *)
Theorem registrations_fetch_throws_iff (db : Store) (events : option (list Event))
    (w : World) (e : Exn) :
  (fst (registrationsQueryFn db events w) = Thrown e
   <-> exists evs, events = Some evs /\ evs <> []
                   /\ select_registrations db (ev_id <$> evs) = Error e)
  /\ (fst (registrationsQueryFn db events w) = Thrown e ->
      snd (registrationsQueryFn db events w) = w).
Proof.
  assert (forall evs, evs <> [] ->
            forall data, select_registrations db (ev_id <$> evs) = Data data ->
            exists regs w', registrationsQueryFn db (Some evs) w = (Ok regs, w')) as Hok.
  { intros evs Hne data Hd. unfold registrationsQueryFn.
    destruct evs as [|ev evs]; [done |]. rewrite Hd.
    destruct (filter_Boolean (row_user_id <$> data)) as [|i ids]; [by eexists _, _ |].
    cbn [List.length Nat.eqb].
    destruct (select_emails db (i :: ids)); by eexists _, _. }
  split.
  - split.
    + destruct events as [[|ev evs]|]; [done | | done].
      intros Ht. exists (ev :: evs). split; [done |]. split; [done |].
      destruct (select_registrations db (ev_id <$> ev :: evs)) as [data|e'] eqn:Hd.
      * destruct (Hok (ev :: evs) ltac:(done) data Hd) as (regs & w' & Hr).
        rewrite Hr in Ht. done.
      * unfold registrationsQueryFn in Ht. rewrite Hd in Ht.
        by injection Ht as ->.
    + intros (evs & -> & Hne & Hd). unfold registrationsQueryFn.
      destruct evs as [|ev evs]; [done |]. by rewrite Hd.
  - destruct events as [[|ev evs]|]; [done | | done].
    intros Ht.
    destruct (select_registrations db (ev_id <$> ev :: evs)) as [data|e'] eqn:Hd.
    + destruct (Hok (ev :: evs) ltac:(done) data Hd) as (regs & w' & Hr).
      rewrite Hr in Ht. done.
    + unfold registrationsQueryFn. by rewrite Hd.
Qed.

Lemma registrations_fetch_throws_iff_witness :
  fst (registrationsQueryFn store_registrations_fail (Some [event_at now_sample]) world_empty)
  = Thrown (PostgrestError "JWT expired").
Proof.
  apply (proj1 (registrations_fetch_throws_iff store_registrations_fail
                  (Some [event_at now_sample]) world_empty (PostgrestError "JWT expired"))).
  exists [event_at now_sample]. split; [reflexivity |]. split; [discriminate | reflexivity].
Defined.

(** The lookup map answers with the last row inserted for a key. *)
Lemma emailMap_last_wins (emails : list EmailRow) (u : string) :
  emailMap_get
    (fold_left (fun m user => <[er_id user := of_nullable (er_user_email user)]> m)
               emails (∅ : gmap string value)) u
  = match List.find (fun r => String.eqb (er_id r) u) (rev emails) with
    | Some r => of_nullable (er_user_email r)
    | None => VUndefined
    end.
Proof.
  unfold emailMap_get.
  induction emails as [|r emails IH] using rev_ind; [done |].
  rewrite fold_left_app, rev_app_distr. simpl.
  destruct (String.eqb_spec (er_id r) u) as [->|Hne].
  - by rewrite lookup_insert_eq.
  - by rewrite lookup_insert_ne.
Qed.

(** X2. Whenever the registrations query succeeds, the fetch returns
    exactly the fetched rows, in their order, whatever becomes of the
    email lookup. *)
Theorem registrations_fetch_keeps_rows (db : Store) (evs : list Event)
    (data : list RegistrationRow) (w : World) :
  evs <> [] ->
  select_registrations db (ev_id <$> evs) = Data data ->
  exists (regs : list Registration) (w' : World),
    registrationsQueryFn db (Some evs) w = (Ok regs, w')
    /\ reg_row <$> regs = data.
Proof.
  intros Hne Hd. unfold registrationsQueryFn.
  destruct evs as [|ev evs]; [done |]. rewrite Hd.
  assert (reg_row <$> (plain <$> data) = data) as Hplain.
  { rewrite <- list_fmap_compose. apply list_fmap_id. }
  destruct (filter_Boolean (row_user_id <$> data)) as [|i ids]; [by eexists _, _ |].
  cbn [List.length Nat.eqb].
  destruct (select_emails db (i :: ids)); eexists _, _; (split; [reflexivity |]).
  - rewrite <- list_fmap_compose. apply list_fmap_id.
  - done.
Qed.

Lemma registrations_fetch_keeps_rows_witness :
  exists (regs : list Registration) (w' : World),
    registrationsQueryFn store_email_twice (Some [event_at now_sample]) world_empty
      = (Ok regs, w')
    /\ reg_row <$> regs
       = [row_sample "r-1" "1" (Some "u-1"); row_sample "r-2" "1" (Some "u-2")].
Proof.
  apply (registrations_fetch_keeps_rows store_email_twice [event_at now_sample]).
  - discriminate.
  - reflexivity.
Defined.

(** X3. When both queries succeed, every row gets the email of the
    last lookup row for its user id; a row whose user has no lookup row
    gets [undefined], a row without a user id gets [null]; nothing is
    logged. *)
Theorem registrations_fetch_emails (db : Store) (evs : list Event)
    (data : list RegistrationRow) (emails : list EmailRow) (w : World) :
  evs <> [] ->
  select_registrations db (ev_id <$> evs) = Data data ->
  filter_Boolean (row_user_id <$> data) <> [] ->
  select_emails db (filter_Boolean (row_user_id <$> data)) = Data emails ->
  registrationsQueryFn db (Some evs) w
  = (Ok ((fun row => {| reg_row := row;
                        reg_user_email := email_for emails (row_user_id row) |}) <$> data),
     w).
Proof.
  intros Hne Hd Hids He. unfold registrationsQueryFn.
  destruct evs as [|ev evs]; [done |]. rewrite Hd.
  destruct (filter_Boolean (row_user_id <$> data)) as [|i ids] eqn:E; [done |].
  cbn [List.length Nat.eqb]. rewrite He.
  unfold mret, M_ret, ret. f_equal. f_equal.
  apply list_fmap_ext. intros _ row _. f_equal.
  unfold email_for. destruct (row_user_id row) as [u|]; [| done].
  destruct (truthy_string u); [| done].
  apply emailMap_last_wins.
Qed.

Lemma registrations_fetch_emails_witness :
  registrationsQueryFn store_email_twice (Some [event_at now_sample]) world_empty
  = (Ok [ {| reg_row := row_sample "r-1" "1" (Some "u-1");
             reg_user_email := VStr "ana@example.org" |};
          {| reg_row := row_sample "r-2" "1" (Some "u-2");
             reg_user_email := VUndefined |} ],
     world_empty).
Proof.
  apply (registrations_fetch_emails store_email_twice [event_at now_sample]
           [row_sample "r-1" "1" (Some "u-1"); row_sample "r-2" "1" (Some "u-2")]
           [{| er_id := "u-1"; er_user_email := Some "old@example.org" |};
            {| er_id := "u-1"; er_user_email := Some "ana@example.org" |}]
           world_empty).
  - discriminate.
  - reflexivity.
  - discriminate.
  - reflexivity.
Defined.

(** X4. The fetch never writes the query cache and never touches a
    channel; the only trace it can leave is one [console.error] line,
    and that only for an email lookup that failed. *)
Theorem registrations_fetch_frame (db : Store) (events : option (list Event)) (w : World) :
  w_queries (snd (registrationsQueryFn db events w)) = w_queries w
  /\ w_channels (snd (registrationsQueryFn db events w)) = w_channels w
  /\ w_next_channel (snd (registrationsQueryFn db events w)) = w_next_channel w
  /\ w_realtime (snd (registrationsQueryFn db events w)) = w_realtime w
  /\ (w_console (snd (registrationsQueryFn db events w)) = w_console w
      \/ exists ids emailError,
           select_emails db ids = Error emailError
           /\ w_console (snd (registrationsQueryFn db events w))
              = w_console w ++ [ConsoleError "Error fetching user emails:" emailError]).
Proof.
  unfold registrationsQueryFn.
  destruct events as [[|ev evs]|]; [by repeat split; try left | | by repeat split; try left].
  destruct (select_registrations db (ev_id <$> ev :: evs)) as [data|e];
    [| by repeat split; try left].
  destruct (filter_Boolean (row_user_id <$> data)) as [|i ids];
    [by repeat split; try left |].
  cbn [List.length Nat.eqb].
  destruct (select_emails db (i :: ids)) as [emails|emailError] eqn:He;
    [by repeat split; try left |].
  repeat split. right. by exists (i :: ids), emailError.
Qed.

End FetchFurther.

(** ** More on channels *)

Section ChannelsFurther.
Import Js Eff QueryCache Realtime Dashboard View Page.

(** X5. The registrations effect subscribes exactly when somebody is
    logged in and the registrations query is enabled (there is at least
    one event).  When it does, the channel it returns is added to the
    open channels and its subscription is logged; the channel is bound
    to the registrations table and filters on the ids of these events,
    a list that is never empty.  Otherwise the effect changes
    nothing. *)
Theorem registrations_effect_subscribes_iff (user : option User)
    (events : option (list Event)) (w : World) :
  (is_Some (snd (registrations_effect user events w))
   <-> events_enabled user = true /\ registrations_enabled events = true)
  /\ (forall c, snd (registrations_effect user events w) = Some c ->
        w_channels (fst (registrations_effect user events w)) = w_channels w ++ [c]
        /\ w_realtime (fst (registrations_effect user events w))
           = w_realtime w ++ [Subscribed c]
        /\ ch_table c = "registrations"
        /\ exists evs, events = Some evs /\ ev_id <$> evs <> []
                       /\ ch_filter c = FIn "event_id" (ev_id <$> evs))
  /\ (snd (registrations_effect user events w) = None ->
      fst (registrations_effect user events w) = w).
Proof.
  unfold registrations_effect, events_enabled, registrations_enabled.
  assert (forall A (x : A), is_Some (Some x)) as Hsome by (by eexists).
  assert (forall A, ~ is_Some (@None A)) as Hnone by (by intros A [? [=]]).
  destruct user as [u|], events as [[|ev evs]|]; simpl; (split; [| split]);
    try done; try (split; [by intros ?%Hnone | by intros [[=] [=]]]).
  intros c [= <-]. split; [done |]. split; [done |]. split; [done |].
  by exists (ev :: evs).
Qed.

Lemma registrations_effect_subscribes_iff_witness :
  is_Some (snd (registrations_effect (Some org_user) (Some [event_at now_sample]) world_cached))
  /\ w_channels (fst (registrations_effect (Some org_user) (Some [event_at now_sample])
                        world_cached))
     = w_channels world_cached ++ [registrations_channel]
  /\ w_realtime (fst (registrations_effect (Some org_user) (Some [event_at now_sample])
                        world_cached))
     = w_realtime world_cached ++ [Subscribed registrations_channel].
Proof.
  destruct (registrations_effect_subscribes_iff (Some org_user)
              (Some [event_at now_sample]) world_cached) as (Hiff & Hsub & _).
  split; [apply Hiff; split; reflexivity |].
  destruct (Hsub registrations_channel eq_refl) as (Hc & Hl & _).
  split; [exact Hc | exact Hl].
Defined.

(** The requests of a commit: the removals of the effects that run
    again, then their subscriptions. *)
Lemma commit_log (heap : Heap) (p : Props) (h : Hooks) (w : World) :
  w_realtime (snd (commit heap p (h, w)))
  = w_realtime w ++ (Removed <$> closed_by p h)
    ++ (Subscribed <$> opened_by p h (fst (commit heap p (h, w)))).
Proof.
  unfold commit, closed_by, opened_by.
  destruct (deps_changed (events_deps h) (p_user p)),
           (deps_changed (registrations_deps h) (p_user p, p_events p)).
  - destruct (run_cleanup_spec (events_cleanup h) w) as (_ & R1 & _).
    destruct (run_cleanup_spec (registrations_cleanup h)
                (run_cleanup (events_cleanup h) w)) as (_ & R2 & _).
    set (w1 := run_cleanup (registrations_cleanup h) (run_cleanup (events_cleanup h) w)) in *.
    pose proof (events_effect_spec (deref_user heap <$> p_user p) w1) as S1.
    destruct (events_effect (deref_user heap <$> p_user p) w1) as [w2 o1].
    pose proof (registrations_effect_spec (deref_user heap <$> p_user p)
                  (deref_events heap <$> p_events p) w2) as S2.
    destruct (registrations_effect _ _ w2) as [w3 o2].
    destruct S1 as (_ & T1 & _), S2 as (_ & T2 & _). simpl in *.
    rewrite T2, T1, R2, R1, !fmap_app, <- !app_assoc. done.
  - destruct (run_cleanup_spec (events_cleanup h) w) as (_ & R1 & _).
    set (w1 := run_cleanup (events_cleanup h) w) in *.
    pose proof (events_effect_spec (deref_user heap <$> p_user p) w1) as S1.
    destruct (events_effect (deref_user heap <$> p_user p) w1) as [w2 o1].
    destruct S1 as (_ & T1 & _). simpl in *.
    rewrite T1, R1, !app_nil_r, <- !app_assoc. done.
  - destruct (run_cleanup_spec (registrations_cleanup h) w) as (_ & R1 & _).
    set (w1 := run_cleanup (registrations_cleanup h) w) in *.
    pose proof (registrations_effect_spec (deref_user heap <$> p_user p)
                  (deref_events heap <$> p_events p) w1) as S2.
    destruct (registrations_effect _ _ w1) as [w3 o2].
    destruct S2 as (_ & T2 & _). simpl in *.
    rewrite T2, R1, <- !app_assoc. done.
  - simpl. by rewrite app_nil_r.
Qed.

(** The hooks after a commit: the dependencies of this render, and for
    an effect that did not run again the cleanup it had. *)
Lemma commit_hooks (heap : Heap) (p : Props) (h : Hooks) (w : World) :
  events_deps (fst (commit heap p (h, w))) = Some (p_user p)
  /\ registrations_deps (fst (commit heap p (h, w))) = Some (p_user p, p_events p)
  /\ (deps_changed (events_deps h) (p_user p) = false ->
      events_cleanup (fst (commit heap p (h, w))) = events_cleanup h)
  /\ (deps_changed (registrations_deps h) (p_user p, p_events p) = false ->
      registrations_cleanup (fst (commit heap p (h, w))) = registrations_cleanup h).
Proof.
  unfold commit.
  destruct (deps_changed (events_deps h) (p_user p)),
           (deps_changed (registrations_deps h) (p_user p, p_events p));
    repeat match goal with
           | |- context [events_effect ?u ?w] => destruct (events_effect u w)
           | |- context [registrations_effect ?u ?e ?w] =>
               destruct (registrations_effect u e w)
           end; simpl; done.
Qed.

(** X9. Unmounting a view, in whatever state it has reached, leaves no
    channel open and no cleanup pending. *)
Theorem unmount_closes_every_channel (heap : Heap) (s : Hooks * World) :
  reachable heap s ->
  w_channels (snd (unmount s)) = [] /\ fst (unmount s) = unmounted.
Proof.
  intros Hr. apply reachable_inv in Hr. destruct s as [h w].
  destruct Hr as [Hopen _ _ _ _ _]. simpl in *.
  split; [by apply cleanup_both | done].
Qed.

Lemma unmount_closes_every_channel_witness :
  w_channels (snd (unmount mounted_sample)) = [].
Proof.
  apply (unmount_closes_every_channel heap_sample mounted_sample).
  exists world_empty, [Render {| p_user := Some 0; p_events := Some 0 |}].
  split; reflexivity.
Defined.

(** X10. Rendering again with the same [user] and [events] objects
    changes nothing: no channel is removed, none is subscribed, and the
    hooks stay as they are. *)
Theorem commit_same_props_idempotent (heap : Heap) (p : Props) (s : Hooks * World) :
  commit heap p (commit heap p s) = commit heap p s.
Proof.
  destruct s as [h w].
  destruct (commit_hooks heap p h w) as (D1 & D2 & _).
  destruct (commit heap p (h, w)) as [h' w']. simpl in *.
  unfold commit. rewrite D1, D2. unfold deps_changed.
  rewrite !bool_decide_eq_true_2 by done. simpl.
  destruct h'. simpl in *. by subst.
Qed.

Lemma subscriptions_app (l k : list Op) :
  subscriptions (l ++ k) = subscriptions l + subscriptions k.
Proof. unfold subscriptions. by rewrite List.filter_app, length_app. Qed.

Lemma removals_app (l k : list Op) : removals (l ++ k) = removals l + removals k.
Proof. unfold removals. by rewrite List.filter_app, length_app. Qed.

Lemma count_Removed (cs : list Channel) :
  subscriptions (Removed <$> cs) = 0 /\ removals (Removed <$> cs) = length cs.
Proof.
  induction cs as [|c cs [IH1 IH2]]; [done |]. split.
  - exact IH1.
  - change (S (removals (Removed <$> cs)) = S (length cs)). by f_equal.
Qed.

Lemma count_Subscribed (cs : list Channel) :
  subscriptions (Subscribed <$> cs) = length cs /\ removals (Subscribed <$> cs) = 0.
Proof.
  induction cs as [|c cs [IH1 IH2]]; [done |]. split.
  - change (S (subscriptions (Subscribed <$> cs)) = S (length cs)). by f_equal.
  - exact IH2.
Qed.

Lemma step_balance (heap : Heap) (s : Hooks * World) (e : Step) :
  view_inv s ->
  subscriptions (w_realtime (snd s))
    = removals (w_realtime (snd s)) + length (w_channels (snd s)) ->
  subscriptions (w_realtime (snd (step heap s e)))
    = removals (w_realtime (snd (step heap s e)))
      + length (w_channels (snd (step heap s e))).
Proof.
  intros Hinv Hbal.
  pose proof (step_inv heap s e Hinv) as Hinv'.
  destruct s as [h w], e as [p| |n]; cbn [step fst snd] in *.
  - destruct Hinv as [Hopen _ _ _ _ _], Hinv' as [Hopen' _ _ _ _ _].
    cbn [fst snd] in *.
    rewrite Hopen', commit_log. rewrite Hopen in Hbal.
    destruct (commit_hooks heap p h w) as (_ & _ & K1 & K2).
    rewrite !subscriptions_app, !removals_app.
    destruct (count_Removed (closed_by p h)) as [-> ->].
    destruct (count_Subscribed (opened_by p h (fst (commit heap p (h, w))))) as [-> ->].
    unfold closed_by, opened_by, cleanups in *. rewrite !length_app in *.
    destruct (deps_changed (events_deps h) (p_user p)),
             (deps_changed (registrations_deps h) (p_user p, p_events p));
      rewrite ?(K1 eq_refl), ?(K2 eq_refl); simpl; lia.
  - destruct Hinv as [Hopen _ _ _ _ _]. cbn [unmount fst snd] in *.
    rewrite (cleanup_both h w Hopen).
    destruct (run_cleanup_spec (events_cleanup h) w) as (_ & R1 & _).
    destruct (run_cleanup_spec (registrations_cleanup h)
                (run_cleanup (events_cleanup h) w)) as (_ & R2 & _).
    rewrite R2, R1, !subscriptions_app, !removals_app.
    destruct (count_Removed (option_list (events_cleanup h))) as [-> ->].
    destruct (count_Removed (option_list (registrations_cleanup h))) as [-> ->].
    rewrite Hopen in Hbal. unfold cleanups in Hbal. rewrite length_app in Hbal.
    simpl. lia.
  - destruct (deliver_realtime n w) as (-> & _ & ->). done.
Qed.

(** X11. From a client with no channel and no request yet, after any
    sequence of renders, unmounts and notifications, the subscriptions
    requested are the removals requested plus the channels still open:
    no channel is left behind and none is removed twice. *)
Theorem subscriptions_balance (heap : Heap) (w0 : World) (es : list Step) :
  w_channels w0 = [] ->
  w_realtime w0 = [] ->
  subscriptions (w_realtime (snd (run heap es (unmounted, w0))))
  = removals (w_realtime (snd (run heap es (unmounted, w0))))
    + length (w_channels (snd (run heap es (unmounted, w0)))).
Proof.
  intros Hc Hl.
  assert (view_inv (unmounted, w0)
          /\ subscriptions (w_realtime (snd (unmounted, w0)))
             = removals (w_realtime (snd (unmounted, w0)))
               + length (w_channels (snd (unmounted, w0)))) as H0.
  { split; [by apply view_inv_initial |]. simpl. by rewrite Hc, Hl. }
  revert H0. generalize (unmounted, w0). clear Hc Hl.
  induction es as [|e es IH]; intros s [Hinv Hbal]; [done |].
  simpl. apply IH. split; [by apply step_inv | by apply step_balance].
Qed.

Lemma subscriptions_balance_witness :
  subscriptions (w_realtime (snd (run heap_sample
                    [Render {| p_user := Some 0; p_events := Some 0 |};
                     Render render_three_events; Unmount]
                    (unmounted, world_empty))))
  = removals (w_realtime (snd (run heap_sample
                    [Render {| p_user := Some 0; p_events := Some 0 |};
                     Render render_three_events; Unmount]
                    (unmounted, world_empty))))
    + length (w_channels (snd (run heap_sample
                    [Render {| p_user := Some 0; p_events := Some 0 |};
                     Render render_three_events; Unmount]
                    (unmounted, world_empty)))).
Proof.
  apply (subscriptions_balance heap_sample world_empty); reflexivity.
Defined.

(** X12. When a render brings the same user but another events array
    (even one with the same event ids), the events channel is left
    alone, and the registrations channel is removed and subscribed
    anew, under a new identifier, for the ids of the new array. *)
Theorem new_events_array_resubscribes (heap : Heap) (s : Hooks * World) (p : Props)
    (a b b' : nat) :
  reachable heap s ->
  registrations_deps (fst s) = Some (Some a, Some b) ->
  p_user p = Some a ->
  p_events p = Some b' ->
  b' <> b ->
  deref_events heap b' <> [] ->
  events_cleanup (fst (commit heap p s)) = events_cleanup (fst s)
  /\ exists c' : Channel,
       registrations_cleanup (fst (commit heap p s)) = Some c'
       /\ ch_filter c' = FIn "event_id" (ev_id <$> deref_events heap b')
       /\ (forall c, c ∈ w_channels (snd s) -> ch_id c <> ch_id c')
       /\ w_realtime (snd (commit heap p s))
          = w_realtime (snd s)
            ++ (Removed <$> option_list (registrations_cleanup (fst s)))
            ++ [Subscribed c'].
Proof.
  intros Hr Hd Hu He Hne Hevs. apply reachable_inv in Hr.
  destruct s as [h w]. destruct Hr as [Hopen Hfresh _ _ _ Hdeps]. cbn [fst snd] in *.
  assert (deps_changed (events_deps h) (p_user p) = false) as Ee.
  { apply deps_changed_false. by rewrite Hdeps, Hd, Hu. }
  assert (deps_changed (registrations_deps h) (p_user p, p_events p) = true) as Er.
  { rewrite Hd, Hu, He. unfold deps_changed.
    apply negb_true_iff, bool_decide_eq_false. intros [= E]. by apply Hne. }
  destruct (commit_hooks heap p h w) as (_ & _ & K1 & _).
  split; [by apply K1 |].
  pose proof (commit_log heap p h w) as Hlog.
  unfold closed_by, opened_by in Hlog. rewrite Ee, Er in Hlog. simpl in Hlog.
  destruct (run_cleanup_spec (registrations_cleanup h) w) as (_ & _ & Hn).
  revert Hlog. unfold commit. rewrite Ee, Er, Hu, He. cbn [fmap option_fmap option_map].
  unfold registrations_effect.
  destruct (deref_events heap b') as [|ev evs] eqn:Eb; [done |].
  cbn [List.length Nat.eqb fmap list_fmap subscribe fst snd registrations_cleanup
       option_list].
  intros Hlog. eexists. split; [reflexivity |]. split; [done |]. split; [| exact Hlog].
  intros c Hc. cbn [ch_id]. rewrite Hn. specialize (Hfresh c Hc). lia.
Qed.

Lemma new_events_array_resubscribes_witness :
  events_cleanup (fst (commit heap_same_ids {| p_user := Some 0; p_events := Some 1 |}
                         mounted_same_ids))
  = events_cleanup (fst mounted_same_ids)
  /\ exists c' : Channel,
       registrations_cleanup
         (fst (commit heap_same_ids {| p_user := Some 0; p_events := Some 1 |}
                 mounted_same_ids)) = Some c'
       /\ ch_filter c' = FIn "event_id" (ev_id <$> deref_events heap_same_ids 1)
       /\ (forall c, c ∈ w_channels (snd mounted_same_ids) -> ch_id c <> ch_id c')
       /\ w_realtime (snd (commit heap_same_ids {| p_user := Some 0; p_events := Some 1 |}
                             mounted_same_ids))
          = w_realtime (snd mounted_same_ids)
            ++ (Removed <$> option_list (registrations_cleanup (fst mounted_same_ids)))
            ++ [Subscribed c'].
Proof.
  apply (new_events_array_resubscribes heap_same_ids mounted_same_ids
           {| p_user := Some 0; p_events := Some 1 |} 0 0 1).
  - exists world_empty, [Render {| p_user := Some 0; p_events := Some 0 |}].
    split; reflexivity.
  - reflexivity.
  - reflexivity.
  - reflexivity.
  - discriminate.
  - discriminate.
Defined.

(** The cleanups after a commit: what the effects that ran again
    returned, in some world, and otherwise the cleanups as they were. *)
Lemma commit_cleanups (heap : Heap) (p : Props) (h : Hooks) (w : World) :
  exists w1 w2 : World,
    events_cleanup (fst (commit heap p (h, w)))
      = (if deps_changed (events_deps h) (p_user p)
         then snd (events_effect (deref_user heap <$> p_user p) w1)
         else events_cleanup h)
    /\ registrations_cleanup (fst (commit heap p (h, w)))
       = (if deps_changed (registrations_deps h) (p_user p, p_events p)
          then snd (registrations_effect (deref_user heap <$> p_user p)
                      (deref_events heap <$> p_events p) w2)
          else registrations_cleanup h).
Proof.
  unfold commit.
  destruct (deps_changed (events_deps h) (p_user p)),
           (deps_changed (registrations_deps h) (p_user p, p_events p)).
  - set (w1 := run_cleanup (registrations_cleanup h) (run_cleanup (events_cleanup h) w)).
    exists w1, (fst (events_effect (deref_user heap <$> p_user p) w1)).
    destruct (events_effect (deref_user heap <$> p_user p) w1) as [w2 o1].
    cbn [fst snd]. by destruct (registrations_effect _ _ w2).
  - set (w1 := run_cleanup (events_cleanup h) w).
    exists w1, w. by destruct (events_effect (deref_user heap <$> p_user p) w1).
  - set (w1 := run_cleanup (registrations_cleanup h) w).
    exists w, w1. by destruct (registrations_effect _ _ w1).
  - by exists w, w.
Qed.

Lemma events_effect_snd (user : option User) (w : World) :
  snd (events_effect user w)
  = (fun u => {| ch_id := w_next_channel w; ch_name := "organization-events-changes";
                 ch_schema := "public"; ch_table := "events";
                 ch_filter := FEq "organization_id" (user_id u);
                 ch_handler := OnEventsChange (user_id u) |}) <$> user.
Proof. by destruct user. Qed.

Lemma registrations_effect_snd (user : option User) (events : option (list Event))
    (w : World) :
  snd (registrations_effect user events w)
  = match user, events with
    | Some u, Some (ev :: evs) =>
        Some {| ch_id := w_next_channel w; ch_name := "registrations-changes";
                ch_schema := "public"; ch_table := "registrations";
                ch_filter := FIn "event_id" (ev_id <$> ev :: evs);
                ch_handler := OnRegistrationsChange (user_id u) |}
    | _, _ => None
    end.
Proof. by destruct user as [u|], events as [[|ev evs]|]. Qed.

Lemma commit_current (heap : Heap) (p : Props) (h : Hooks) (w : World) :
  events_channel_current heap h /\ registrations_channel_current heap h
    /\ channels_present heap h ->
  events_channel_current heap (fst (commit heap p (h, w)))
  /\ registrations_channel_current heap (fst (commit heap p (h, w)))
  /\ channels_present heap (fst (commit heap p (h, w))).
Proof.
  intros (He & Hr & Hpe & Hpr).
  destruct (commit_hooks heap p h w) as (D1 & D2 & _).
  destruct (commit_cleanups heap p h w) as (w1 & w2 & C1 & C2).
  unfold events_channel_current, registrations_channel_current, channels_present.
  rewrite D1, D2, C1, C2. clear C1 C2 D1 D2.
  rewrite events_effect_snd, registrations_effect_snd.
  split; [| split; [| split]].
  - intros c Hc.
    destruct (deps_changed (events_deps h) (p_user p)) eqn:E.
    + destruct (p_user p) as [a|]; [| done]. injection Hc as <-. by exists a.
    + apply deps_changed_false in E. destruct (He c Hc) as (a & Ha & ? & ?).
      exists a. split; [congruence | done].
  - intros c Hc.
    destruct (deps_changed (registrations_deps h) (p_user p, p_events p)) eqn:E.
    + destruct (p_user p) as [a|], (p_events p) as [b|]; try done. simpl in Hc.
      destruct (deref_events heap b) as [|ev evs] eqn:Eb; [done |].
      injection Hc as <-. exists a, b. rewrite Eb. done.
    + apply deps_changed_false in E. destruct (Hr c Hc) as (a & b & Hab & ? & ? & ?).
      exists a, b. split; [congruence | done].
  - intros a [= Ha].
    destruct (deps_changed (events_deps h) (p_user p)) eqn:E.
    + rewrite Ha. by eexists.
    + apply deps_changed_false in E. apply (Hpe a). congruence.
  - intros a b [= Ha Hb] Hne.
    destruct (deps_changed (registrations_deps h) (p_user p, p_events p)) eqn:E.
    + rewrite Ha, Hb. simpl. destruct (deref_events heap b); [done | by eexists].
    + apply deps_changed_false in E. apply (Hpr a b); [congruence | done].
Qed.

Lemma reachable_current (heap : Heap) (s : Hooks * World) :
  reachable heap s ->
  events_channel_current heap (fst s)
  /\ registrations_channel_current heap (fst s)
  /\ channels_present heap (fst s).
Proof.
  intros (w0 & es & _ & ->).
  assert (events_channel_current heap (fst (unmounted, w0))
          /\ registrations_channel_current heap (fst (unmounted, w0))
          /\ channels_present heap (fst (unmounted, w0))) as H0.
  { unfold events_channel_current, registrations_channel_current, channels_present.
    simpl. repeat split; done. }
  revert H0. generalize (unmounted, w0).
  induction es as [|e es IH]; intros [h w] H0; [done |].
  simpl. apply IH. destruct e as [p| |n]; cbn [step unmount fst snd].
  - by apply commit_current.
  - unfold events_channel_current, registrations_channel_current, channels_present.
    simpl. repeat split; done.
  - done.
Qed.

(** X13. In every state a view reaches, the open channels are exactly
    those its effects hold, and they are up to date: the events channel
    filters on the id of the user of the last render, the registrations
    channel on the ids of the events of the last render, each with the
    callback of that user; and whenever the last render had a user (and
    events), the corresponding channel is open. *)
Theorem open_channels_are_current (heap : Heap) (s : Hooks * World) :
  reachable heap s ->
  w_channels (snd s) = cleanups (fst s)
  /\ events_channel_current heap (fst s)
  /\ registrations_channel_current heap (fst s)
  /\ channels_present heap (fst s).
Proof.
  intros Hr. split; [by destruct (reachable_inv heap s Hr) |].
  by apply reachable_current.
Qed.

Lemma open_channels_are_current_witness :
  w_channels (snd mounted_sample) = cleanups (fst mounted_sample)
  /\ events_channel_current heap_sample (fst mounted_sample)
  /\ registrations_channel_current heap_sample (fst mounted_sample)
  /\ channels_present heap_sample (fst mounted_sample).
Proof.
  apply (open_channels_are_current heap_sample mounted_sample).
  exists world_empty, [Render {| p_user := Some 0; p_events := Some 0 |}].
  split; reflexivity.
Defined.

(** A handler for one user does not invalidate the queries of
    another, and the events handler does not invalidate the
    registrations query. *)
Lemma handler_invalidates_other (h : Handler) (uid uid' : string) :
  h = OnEventsChange uid \/ h = OnRegistrationsChange uid ->
  uid <> uid' ->
  handler_invalidates h (events_key (Some uid')) = false
  /\ handler_invalidates h (registrations_key (Some uid')) = false.
Proof.
  intros [-> | ->] Hne; unfold handler_invalidates, events_key, registrations_key;
    simpl; rewrite ?(bool_decide_eq_false_2 (Some uid = Some uid')) by congruence;
    rewrite ?andb_false_r; done.
Qed.

Lemma deliver_untouched (n : Change) (w : World) (key : QueryKey) :
  (forall c, c ∈ w_channels w ->
     binding_matches c n && handler_invalidates (ch_handler c) key = false) ->
  w_queries (deliver n w) !! key = w_queries w !! key.
Proof.
  intros Hall. unfold deliver. rewrite deliver_fold_queries.
  assert (existsb (fun c => binding_matches c n && handler_invalidates (ch_handler c) key)
                  (w_channels w) = false) as ->.
  { apply not_true_is_false. intros (c & Hc & Ht)%existsb_exists.
    apply list_elem_of_In in Hc. rewrite (Hall c Hc) in Ht. done. }
  by destruct (w_queries w !! key).
Qed.

(** X14. A notification only ever marks cache entries as invalidated:
    it adds and drops no entry, leaves every entry's data as it is (the
    payload is logged, not applied), never clears a mark, and opens or
    closes no channel; when no open channel matches it, it changes
    nothing at all. *)
Theorem deliver_only_invalidates (n : Change) (w : World) :
  (forall key : QueryKey,
     q_data <$> w_queries (deliver n w) !! key = q_data <$> w_queries w !! key)
  /\ (forall (key : QueryKey) q, w_queries w !! key = Some q -> q_isInvalidated q = true ->
        q_isInvalidated <$> w_queries (deliver n w) !! key = Some true)
  /\ w_channels (deliver n w) = w_channels w
  /\ w_realtime (deliver n w) = w_realtime w
  /\ ((forall c, c ∈ w_channels w -> binding_matches c n = false) -> deliver n w = w).
Proof.
  split; [| split; [| split; [| split]]].
  - intros key. unfold deliver. rewrite deliver_fold_queries.
    destruct (w_queries w !! key) as [q|]; [| reflexivity].
    destruct (existsb _ _); reflexivity.
  - intros key q Hq Hi. unfold deliver. rewrite deliver_fold_queries, Hq.
    destruct (existsb _ _); simpl; [reflexivity | by rewrite Hi].
  - apply deliver_realtime.
  - apply deliver_realtime.
  - unfold deliver. generalize (w_channels w). intros cs Hall.
    induction cs as [|c cs IH]; [done |]. simpl.
    rewrite (Hall c ltac:(left)). apply IH. intros c' Hc'. apply Hall. by right.
Qed.

Lemma deliver_only_invalidates_witness :
  deliver event_deleted world_subscribed = world_subscribed.
Proof.
  apply (deliver_only_invalidates event_deleted world_subscribed).
  intros c Hc. vm_compute in Hc. apply list_elem_of_singleton in Hc as ->.
  reflexivity.
Defined.

(** X15. A dashboard mounted for one user never invalidates the
    queries of another user, whatever notification arrives. *)
Theorem other_users_queries_untouched (heap : Heap) (s : Hooks * World) (n : Change)
    (a : nat) (uid' : string) :
  reachable heap s ->
  events_deps (fst s) = Some (Some a) ->
  uid' <> user_id (deref_user heap a) ->
  w_queries (deliver n (snd s)) !! events_key (Some uid')
    = w_queries (snd s) !! events_key (Some uid')
  /\ w_queries (deliver n (snd s)) !! registrations_key (Some uid')
     = w_queries (snd s) !! registrations_key (Some uid').
Proof.
  intros Hr Ha Hne.
  destruct (reachable_current heap s Hr) as (He & Hg & _).
  apply reachable_inv in Hr. destruct s as [h w].
  destruct Hr as [Hopen _ _ _ _ Hdeps]. cbn [fst snd] in *.
  assert (forall c, c ∈ w_channels w ->
            handler_invalidates (ch_handler c) (events_key (Some uid')) = false
            /\ handler_invalidates (ch_handler c) (registrations_key (Some uid')) = false)
    as Hnone.
  { intros c. rewrite Hopen. unfold cleanups. rewrite elem_of_app. intros [Hc|Hc].
    - destruct (events_cleanup h) as [c1|] eqn:E1; [| by apply elem_of_nil in Hc].
      apply list_elem_of_singleton in Hc as ->.
      destruct (He c1 E1) as (a' & Ha' & _ & Hh).
      rewrite Ha in Ha'. injection Ha' as <-.
      apply (handler_invalidates_other _ (user_id (deref_user heap a))); [by left | done].
    - destruct (registrations_cleanup h) as [c2|] eqn:E2; [| by apply elem_of_nil in Hc].
      apply list_elem_of_singleton in Hc as ->.
      destruct (Hg c2 E2) as (a' & b & Hab & _ & _ & Hh).
      rewrite Hab in Hdeps. simpl in Hdeps. rewrite Ha in Hdeps. injection Hdeps as <-.
      apply (handler_invalidates_other _ (user_id (deref_user heap a))); [by right | done]. }
  split; apply deliver_untouched; intros c Hc; destruct (Hnone c Hc) as [H1 H2];
    rewrite ?H1, ?H2; apply andb_false_r.
Qed.

Lemma other_users_queries_untouched_witness :
  w_queries (deliver registration_inserted (snd mounted_sample)) !! events_key (Some "org-2")
    = w_queries (snd mounted_sample) !! events_key (Some "org-2")
  /\ w_queries (deliver registration_inserted (snd mounted_sample))
       !! registrations_key (Some "org-2")
     = w_queries (snd mounted_sample) !! registrations_key (Some "org-2").
Proof.
  apply (other_users_queries_untouched heap_sample mounted_sample registration_inserted
           0 "org-2").
  - exists world_empty, [Render {| p_user := Some 0; p_events := Some 0 |}].
    split; reflexivity.
  - reflexivity.
  - discriminate.
Defined.

(** X16. A change on the events table never invalidates a
    registrations query: of the two channels of a view, only the events
    channel can receive it, and its callback names the events query
    only. *)
Theorem events_change_keeps_registrations (heap : Heap) (s : Hooks * World) (n : Change)
    (uid : option string) :
  reachable heap s ->
  chg_table n = "events" ->
  w_queries (deliver n (snd s)) !! registrations_key uid
  = w_queries (snd s) !! registrations_key uid.
Proof.
  intros Hr Ht.
  destruct (reachable_current heap s Hr) as (He & _ & _).
  apply reachable_inv in Hr. destruct s as [h w].
  destruct Hr as [Hopen _ _ _ Hreg _]. cbn [fst snd] in *.
  apply deliver_untouched. intros c. rewrite Hopen. unfold cleanups.
  rewrite elem_of_app. intros [Hc|Hc].
  - destruct (events_cleanup h) as [c1|] eqn:E1; [| by apply elem_of_nil in Hc].
    apply list_elem_of_singleton in Hc as ->.
    destruct (He c1 E1) as (a' & _ & _ & ->).
    unfold handler_invalidates, events_key, registrations_key. simpl.
    apply andb_false_r.
  - destruct (registrations_cleanup h) as [c2|] eqn:E2; [| by apply elem_of_nil in Hc].
    apply list_elem_of_singleton in Hc as ->.
    unfold binding_matches. rewrite (Hreg c2 eq_refl), Ht. simpl.
    by rewrite andb_false_r.
Qed.

Lemma events_change_keeps_registrations_witness :
  w_queries (deliver event_deleted (snd mounted_sample)) !! registrations_key (Some "org-1")
  = w_queries (snd mounted_sample) !! registrations_key (Some "org-1").
Proof.
  apply (events_change_keeps_registrations heap_sample mounted_sample event_deleted
           (Some "org-1")).
  - exists world_empty, [Render {| p_user := Some 0; p_events := Some 0 |}].
    split; reflexivity.
  - reflexivity.
Defined.

End ChannelsFurther.

(** ** What is rendered *)

Section RenderFurther.
Import Js DateFns Aggregation Eff Dashboard Page.

(** X17. The volunteers block of a card is absent exactly when the
    event has no registration; otherwise it shows the first eight
    registrations in cache order, and a [+n] badge exactly when there
    are more than eight, so that pictures and badge add up to the
    number of registrations. *)
Theorem volunteers_block_counts (regs : list Registration) :
  match volunteers regs with
  | None => regs = []
  | Some v =>
      regs <> []
      /\ av_key <$> vol_avatars v = (fun reg => row_id (reg_row reg)) <$> take 8 regs
      /\ length (vol_avatars v) = Nat.min 8 (length regs)
      /\ (is_Some (vol_more v) <-> 8 < length regs)
      /\ (len (vol_avatars v) + default 0 (vol_more v) = len regs)%Z
  end.
Proof.
  unfold volunteers, len.
  destruct (Z.ltb_spec 0 (Z.of_nat (List.length regs))) as [Hpos|Hz].
  - cbn [vol_avatars vol_more].
    split; [by destruct regs |].
    split; [by rewrite <- list_fmap_compose |].
    rewrite length_fmap, length_take.
    split; [done |].
    destruct (Z.ltb_spec 8 (Z.of_nat (List.length regs))) as [Hgt|Hle].
    + split; [split; [intros _; lia | by eexists] |]. cbn [default]. unfold id. lia.
    + split; [split; [by intros [? [=]] | intros ?; lia] |]. cbn [default]. lia.
  - destruct regs; [done | simpl in Hz; lia].
Qed.

Lemma volunteers_block_counts_witness :
  match volunteers ten_registrations with
  | None => ten_registrations = []
  | Some v =>
      ten_registrations <> []
      /\ av_key <$> vol_avatars v
         = (fun reg => row_id (reg_row reg)) <$> take 8 ten_registrations
      /\ length (vol_avatars v) = Nat.min 8 (length ten_registrations)
      /\ (is_Some (vol_more v) <-> 8 < length ten_registrations)
      /\ (len (vol_avatars v) + default 0 (vol_more v) = len ten_registrations)%Z
  end.
Proof. apply (volunteers_block_counts ten_registrations). Defined.

(** X17, ten registrations: eight pictures and a [+2] badge. *)
Example ten_registrations_block :
  (fun v => (length (vol_avatars v), vol_more v)) <$> volunteers ten_registrations
  = Some (8, Some 2%Z).
Proof. reflexivity. Qed.

Lemma cards_by_label (now : Z) (registrations : option (list Registration))
    (es : list Event) :
  len (List.filter (fun c => bool_decide (card_label c = Active))
                   (card now registrations <$> es))
    = len (List.filter (fun event => negb (isPast now (ev_date event))) es)
  /\ len (List.filter (fun c => bool_decide (card_label c = Completed))
                      (card now registrations <$> es))
     = len (List.filter (fun event => isPast now (ev_date event)) es).
Proof.
  unfold len. induction es as [|e es [IH1 IH2]]; [done |].
  rewrite fmap_cons. cbn [List.filter card_label card].
  destruct (isPast now (ev_date e)); simpl; lia.
Qed.

(** X18. On a rendered dashboard there is one card per cached event,
    in the order of the cache, and the badges agree with the counters:
    as many cards are labelled active as [activeEvents] says, as many
    completed as [completedEvents] says. *)
Theorem card_labels_match_stats (now : Z) (events : option (list Event))
    (registrations : option (list Registration)) (st : Stats) (analytics : bool)
    (cards : list Card) (noEventsYet : bool) :
  render now false events registrations = Shown st analytics cards noEventsYet ->
  card_key <$> cards = ev_id <$> default [] events
  /\ len (List.filter (fun c => bool_decide (card_label c = Active)) cards)
     = activeEvents st
  /\ len (List.filter (fun c => bool_decide (card_label c = Completed)) cards)
     = completedEvents st.
Proof.
  unfold render. intros [= <- _ <- _].
  unfold stats; cbn [activeEvents completedEvents]. rewrite !or_zero_fmap by done.
  destruct events as [es|]; cbn [default]; [| done].
  split; [by rewrite <- list_fmap_compose |].
  apply cards_by_label.
Qed.

Lemma card_labels_match_stats_witness :
  exists st analytics cards noEventsYet,
    render now_sample false
      (Some [event_at (now_sample - day); event_at (now_sample + day)])
      (Some ten_registrations) = Shown st analytics cards noEventsYet
    /\ card_key <$> cards
       = ev_id <$> default [] (Some [event_at (now_sample - day); event_at (now_sample + day)])
    /\ len (List.filter (fun c => bool_decide (card_label c = Active)) cards)
       = activeEvents st
    /\ len (List.filter (fun c => bool_decide (card_label c = Completed)) cards)
       = completedEvents st.
Proof.
  eexists _, _, _, _. split; [reflexivity |].
  eapply (card_labels_match_stats now_sample
           (Some [event_at (now_sample - day); event_at (now_sample + day)])
           (Some ten_registrations)).
  reflexivity.
Defined.

(** X19. Once the events query is no longer loading: the "No Events
    Yet" card is shown exactly when the cached collection is the empty
    list; it is never shown together with an event card; while the
    collection is undefined (the query failed or is disabled) the page
    shows neither cards nor that card, and counters that are all zero;
    the analytics block is shown exactly when there is at least one
    registration and the event collection is defined. *)
Theorem page_without_events (now : Z) (events : option (list Event))
    (registrations : option (list Registration)) (st : Stats) (analytics : bool)
    (cards : list Card) (noEventsYet : bool) :
  render now false events registrations = Shown st analytics cards noEventsYet ->
  (noEventsYet = true <-> events = Some [])
  /\ (noEventsYet = true -> cards = [])
  /\ (events = None ->
      cards = [] /\ noEventsYet = false
      /\ st = {| totalEvents := 0; activeEvents := 0;
                 totalVolunteers := 0; completedEvents := 0 |})
  /\ (analytics = true
      <-> (exists r rs, registrations = Some (r :: rs)) /\ is_Some events).
Proof.
  unfold render. intros [= <- <- <- <-].
  split; [| split; [| split]].
  - destruct events as [[|e es]|]; split; done.
  - by destruct events as [[|e es]|].
  - by intros ->.
  - destruct registrations as [[|r rs]|], events as [es|]; split; try done;
      try (by intros [(? & ? & [=]) _]); try (by intros [_ [? [=]]]).
    intros _. split; [by eexists _, _ | by eexists].
Qed.

Lemma page_without_events_witness :
  exists st analytics cards noEventsYet,
    render now_sample false (Some []) (Some ten_registrations)
      = Shown st analytics cards noEventsYet
    /\ noEventsYet = true /\ cards = [].
Proof.
  eexists _, _, _, _. split; [reflexivity |].
  pose proof (page_without_events now_sample (Some []) (Some ten_registrations)
                _ _ _ _ eq_refl) as (Hiff & Hcards & _).
  split; [by apply Hiff | apply Hcards; by apply Hiff].
Defined.



(** X21. After a fetch whose email lookup failed, no tooltip of the
    dashboard shows an email line. *)
Theorem failed_lookup_shows_no_email (db : Store) (evs : list Event)
    (data : list RegistrationRow) (emailError : Exn) (w w' : World)
    (regs : list Registration) :
  evs <> [] ->
  select_registrations db (ev_id <$> evs) = Data data ->
  filter_Boolean (row_user_id <$> data) <> [] ->
  select_emails db (filter_Boolean (row_user_id <$> data)) = Error emailError ->
  registrationsQueryFn db (Some evs) w = (Ok regs, w') ->
  forall (now : Z) (event : Event) (v : Volunteers) (a : Avatar),
    card_registered (card now (Some regs) event) = Some v ->
    a ∈ vol_avatars v ->
    tt_email (av_tooltip a) = None.
Proof.
  intros Hne Hd Hids He Hfetch now event v a Hv Ha.
  assert (regs = plain <$> data) as ->.
  { revert Hfetch. unfold registrationsQueryFn.
    destruct evs as [|ev evs']; [done |]. rewrite Hd.
    destruct (filter_Boolean (row_user_id <$> data)) as [|i ids]; [done |].
    cbn [List.length Nat.eqb]. rewrite He. by intros [= <- _]. }
  revert Hv. cbn [card card_registered]. unfold volunteers.
  destruct (0 <? _)%Z; [| done]. intros [= <-]. cbn [vol_avatars] in Ha.
  apply list_elem_of_fmap in Ha as (reg & -> & Hreg).
  apply subseteq_take in Hreg.
  unfold getEventRegistrations in Hreg.
  apply list_elem_of_In, List.filter_In in Hreg as [Hreg _].
  apply list_elem_of_In, list_elem_of_fmap in Hreg as (row & -> & _).
  reflexivity.
Qed.

Lemma failed_lookup_shows_no_email_witness :
  tt_email (av_tooltip (avatar (plain (row_sample "r-1" "1" (Some "u-1"))))) = None.
Proof.
  apply (failed_lookup_shows_no_email store_email_lookup_fails [event_at now_sample]
           [row_sample "r-1" "1" (Some "u-1"); row_sample "r-2" "1" None]
           (PostgrestError "permission denied for table users") world_empty
           (Dashboard.console
              (ConsoleError "Error fetching user emails:"
                 (PostgrestError "permission denied for table users")) world_empty)
           [plain (row_sample "r-1" "1" (Some "u-1")); plain (row_sample "r-2" "1" None)]
           ltac:(discriminate) eq_refl ltac:(discriminate) eq_refl eq_refl
           now_sample (event_at now_sample)
           {| vol_avatars := [avatar (plain (row_sample "r-1" "1" (Some "u-1")));
                              avatar (plain (row_sample "r-2" "1" None))];
              vol_more := None |}).
  - reflexivity.
  - left.
Defined.

Lemma filter_by_event_split (regs : list Registration) (id : string) (ids : list string) :
  id ∉ ids ->
  length (List.filter (fun reg => String.eqb (reg_event_id reg) id) regs)
  + length (List.filter (fun reg => bool_decide (reg_event_id reg ∈ ids)) regs)
  = length (List.filter (fun reg => bool_decide (reg_event_id reg ∈ id :: ids)) regs).
Proof.
  intros Hid. induction regs as [|r regs IH]; [done |]. cbn [List.filter].
  destruct (String.eqb_spec (reg_event_id r) id) as [E|E].
  - rewrite (bool_decide_eq_false_2 (reg_event_id r ∈ ids)) by (by rewrite E).
    rewrite (bool_decide_eq_true_2 (reg_event_id r ∈ id :: ids)) by (rewrite E; left).
    simpl. lia.
  - destruct (decide (reg_event_id r ∈ ids)) as [Hin|Hin].
    + rewrite (bool_decide_eq_true_2 _ Hin).
      rewrite (bool_decide_eq_true_2 (reg_event_id r ∈ id :: ids)) by (by right).
      simpl. lia.
    + rewrite (bool_decide_eq_false_2 _ Hin).
      rewrite (bool_decide_eq_false_2 (reg_event_id r ∈ id :: ids)); [done |].
      intros [?|?]%elem_of_cons; done.
Qed.

(** X22. When the cached events have distinct ids, every cached
    registration of one of these events is listed under exactly one
    event, and a registration of any other event under none: the lists
    of the cards add up to the registrations whose event is cached. *)
Theorem registrations_listed_once (regs : list Registration) (es : list Event) :
  NoDup (ev_id <$> es) ->
  sum_list ((fun event => length (getEventRegistrations (Some regs) (ev_id event))) <$> es)
  = length (List.filter (fun reg => bool_decide (reg_event_id reg ∈ ev_id <$> es)) regs).
Proof.
  induction es as [|e es IH]; intros Hnd.
  - change (0 = length (List.filter
                           (fun reg => bool_decide (reg_event_id reg ∈ @nil string)) regs)).
    induction regs as [|r regs IHr]; [done |]. cbn [List.filter].
    by rewrite bool_decide_eq_false_2 by apply not_elem_of_nil.
  - rewrite !fmap_cons in *. apply NoDup_cons in Hnd as [Hid Hnd].
    cbn [sum_list sum_list_with]. rewrite (IH Hnd).
    by apply filter_by_event_split.
Qed.

Lemma registrations_listed_once_witness :
  sum_list ((fun event => length (getEventRegistrations (Some ten_registrations)
                                    (ev_id event)))
              <$> [event_numbered "1"; event_numbered "2"])
  = length (List.filter
              (fun reg => bool_decide (reg_event_id reg
                                        ∈ ev_id <$> [event_numbered "1"; event_numbered "2"]))
              ten_registrations).
Proof.
  apply (registrations_listed_once ten_registrations
           [event_numbered "1"; event_numbered "2"]).
  simpl. apply NoDup_cons. split.
  - intros H%list_elem_of_singleton. discriminate H.
  - apply NoDup_singleton.
Defined.

End RenderFurther.

(** ** More on the session store *)

Section AuthFurther.
Import Js Eff Auth.

(** Unfolds an operation of the context down to its state changes. *)
Ltac unfold_auth :=
  unfold new_calls, step, perform, signUp, signIn, signOut, getSession_then,
    onAuthStateChange, handleAuthError, setUser, setLoading, call, try_catch,
    exec, modify, throw, mbind, M_bind, bind, mret, M_ret, ret;
  simpl.

(** X23. [signUp], [signIn] and [signOut] return normally whatever
    the identity provider answers; and whenever the provider answers a
    call with an error, the operation stops at that call and runs
    [handleAuthError] on that very error. *)
Theorem operations_catch_provider_errors (idp : IdentityProvider)
    (email password : string) (role : UserRole) (s : State) :
  fst (signUp idp email password role s) = Ok tt
  /\ fst (signIn idp email password s) = Ok tt
  /\ fst (signOut idp s) = Ok tt
  /\ (forall e, error (signUp_response idp email password role) = Some e ->
        exec (signUp idp email password role) s
        = exec (handleAuthError e) (exec (call (AuthSignUp email password role)) s))
  /\ (forall u e,
        signUp_response idp email password role
          = {| data_user := Some u; error := None |} ->
        error (signInWithPassword_response idp email password) = Some e ->
        exec (signUp idp email password role) s
        = exec (handleAuthError e)
            (exec (call (AuthSignInWithPassword email password))
               (exec (call (AuthSignUp email password role)) s)))
  /\ (forall e, error (signInWithPassword_response idp email password) = Some e ->
        exec (signIn idp email password) s
        = exec (handleAuthError e)
            (exec (call (AuthSignInWithPassword email password)) s))
  /\ (forall e, signOut_error idp = Some e ->
        exec (signOut idp) s = exec (handleAuthError e) (exec (call AuthSignOut) s)).
Proof.
  split; [| split; [| split; [| split; [| split; [| split]]]]].
  - unfold_auth.
    destruct (signUp_response idp email password role) as [[u|] [e|]]; simpl; try done.
    destruct (error (signInWithPassword_response idp email password)); simpl; try done.
    by destruct (truthy_string (user_id u)).
  - unfold_auth.
    destruct (signInWithPassword_response idp email password) as [[u|] [e|]];
      simpl; try done.
    by destruct (truthy_string (user_id u)).
  - unfold_auth. by destruct (signOut_error idp).
  - intros e He. unfold_auth. by rewrite He.
  - intros u e Hup Hin. unfold_auth. rewrite Hup. simpl. by rewrite Hin.
  - intros e He. unfold_auth. by rewrite He.
  - intros e He. unfold_auth. by rewrite He.
Qed.

Lemma operations_catch_provider_errors_witness :
  exec (signOut idp_sign_out_fails) initial
  = exec (handleAuthError (AuthApiError "Failed to fetch")) (exec (call AuthSignOut) initial).
Proof.
  apply (operations_catch_provider_errors idp_sign_out_fails "ana@example.org" "s3cret!"
           Volunteer initial).
  reflexivity.
Defined.

Lemma step_user (s : State) (a : Action) :
  user (step s a)
  = match session_of a with
    | Some session => session_user <$> session
    | None => user s
    end.
Proof.
  destruct a as [session|ev session|idp email password role|idp email password|idp];
    unfold_auth.
  - by destruct session.
  - by destruct session.
  - destruct (signUp_response idp email password role) as [[u|] [e|]]; simpl; try done.
    destruct (error (signInWithPassword_response idp email password)); simpl; try done.
    by destruct (truthy_string (user_id u)).
  - destruct (signInWithPassword_response idp email password) as [[u|] [e|]];
      simpl; try done.
    by destruct (truthy_string (user_id u)).
  - by destruct (signOut_error idp).
Qed.

(** X24. The [user] of the context is always the user of the last
    session delivered by the restore or by a notification, and is
    unchanged while none has been delivered; [signUp], [signIn] and
    [signOut] do not set it themselves, so after a [signOut] the user
    is still there until a notification clears it. *)
Theorem user_is_last_session (actions : list Action) (s : State) :
  user (run actions s)
    = match last (omap session_of actions) with
      | Some session => session_user <$> session
      | None => user s
      end
  /\ (forall idp, user (step s (SignOut idp)) = user s).
Proof.
  split; [| intros idp; apply step_user].
  revert s. induction actions as [|a actions IH]; intros s; [done |].
  cbn [run fold_left]. fold (run actions (step s a)). rewrite IH, step_user.
  cbn [omap list_omap]. destruct (session_of a) as [session|]; [| done].
  rewrite last_cons. by destruct (last (omap session_of actions)).
Qed.

(** X25. When the provider rejects the sign-up (it returns an error,
    with or without user data) or returns no user, [signUp] stops
    there: it does not attempt to sign in, does not wait and does not
    route; it reports the provider's error, or "No user data returned",
    once. *)
Theorem signUp_rejected_calls (idp : IdentityProvider) (email password : string)
    (role : UserRole) (s : State) :
  (forall e, error (signUp_response idp email password role) = Some e ->
     new_calls (signUp idp email password role) s
     = [AuthSignUp email password role; ToastError (message e)])
  /\ (error (signUp_response idp email password role) = None ->
      data_user (signUp_response idp email password role) = None ->
      new_calls (signUp idp email password role) s
      = [AuthSignUp email password role; ToastError "No user data returned"]).
Proof.
  split.
  - intros e He. unfold_auth. rewrite He. simpl.
    rewrite <- app_assoc. apply drop_length_app.
  - intros He Hu. unfold_auth. rewrite He, Hu. simpl.
    rewrite <- app_assoc. apply drop_length_app.
Qed.

Lemma signUp_rejected_calls_witness :
  new_calls (signUp idp_sign_out_fails "ana@example.org" "s3cret!" Volunteer) initial
  = [AuthSignUp "ana@example.org" "s3cret!" Volunteer; ToastError "Failed to fetch"].
Proof.
  apply (proj1 (signUp_rejected_calls idp_sign_out_fails "ana@example.org" "s3cret!"
                  Volunteer initial) (AuthApiError "Failed to fetch")).
  reflexivity.
Defined.

(** X26. When the account is created but the sign-in that follows
    fails, [signUp] reports that error and neither waits nor routes. *)
Theorem signUp_sign_in_fails_calls (idp : IdentityProvider) (email password : string)
    (role : UserRole) (u : User) (e : Exn) (s : State) :
  signUp_response idp email password role = {| data_user := Some u; error := None |} ->
  error (signInWithPassword_response idp email password) = Some e ->
  new_calls (signUp idp email password role) s
  = [AuthSignUp email password role;
     AuthSignInWithPassword email password;
     ToastError (message e)].
Proof.
  intros Hup Hin. unfold_auth. rewrite Hup. simpl. rewrite Hin. simpl.
  rewrite <- !app_assoc. apply drop_length_app.
Qed.

Lemma signUp_sign_in_fails_calls_witness :
  new_calls (signUp idp_sign_in_fails "ana@example.org" "s3cret!" Organization) initial
  = [AuthSignUp "ana@example.org" "s3cret!" Organization;
     AuthSignInWithPassword "ana@example.org" "s3cret!";
     ToastError "Email not confirmed"].
Proof.
  apply (signUp_sign_in_fails_calls idp_sign_in_fails "ana@example.org" "s3cret!"
           Organization {| user_id := "u-1" |} (AuthApiError "Email not confirmed") initial);
    reflexivity.
Defined.

Lemma signIn_calls (idp : IdentityProvider) (email password : string) (s : State) :
  new_calls (signIn idp email password) s
  = AuthSignInWithPassword email password ::
      match error (signInWithPassword_response idp email password),
            data_user (signInWithPassword_response idp email password) with
      | Some e, _ => [ToastError (message e)]
      | None, None => [ToastError "No user data returned"]
      | None, Some u =>
          ToastSuccess "Logged in successfully!" ::
            (if truthy_string (user_id u) then [HandleAuthNavigation (user_id u)] else [])
      end.
Proof.
  unfold_auth.
  destruct (signInWithPassword_response idp email password) as [[u|] [e|]]; simpl;
    try (rewrite <- !app_assoc; apply drop_length_app).
  destruct (truthy_string (user_id u)); simpl;
    rewrite <- ?app_assoc; apply drop_length_app.
Qed.

(** X27. [signIn] runs the post-auth routing exactly when the provider
    returns no error and a user with a non-empty id, and then for that
    id; it shows the success toast exactly when the provider returns no
    error and a user; it never waits. *)
Theorem signIn_routes_iff_success (idp : IdentityProvider) (email password : string)
    (s : State) :
  (forall uid, HandleAuthNavigation uid ∈ new_calls (signIn idp email password) s
     <-> error (signInWithPassword_response idp email password) = None
         /\ data_user (signInWithPassword_response idp email password)
            = Some {| user_id := uid |}
         /\ uid <> "")
  /\ (ToastSuccess "Logged in successfully!" ∈ new_calls (signIn idp email password) s
      <-> error (signInWithPassword_response idp email password) = None
          /\ is_Some (data_user (signInWithPassword_response idp email password)))
  /\ (forall ms, SetTimeout ms ∉ new_calls (signIn idp email password) s).
Proof.
  assert (forall x, truthy_string x = true <-> x <> "") as Htruthy.
  { intros x. unfold truthy_string. rewrite negb_true_iff.
    destruct (String.eqb_spec x ""); split; congruence. }
  rewrite signIn_calls.
  destruct (signInWithPassword_response idp email password) as [[[uid']|] [e|]];
    cbn [error data_user user_id].
  - split; [| split].
    + intros uid. split; [| by intros [[=] _]].
      intros H. repeat (apply elem_of_cons in H as [H|H]; [discriminate H |]).
      by apply elem_of_nil in H.
    + split; [| by intros [[=] _]].
      intros H. repeat (apply elem_of_cons in H as [H|H]; [discriminate H |]).
      by apply elem_of_nil in H.
    + intros ms H. repeat (apply elem_of_cons in H as [H|H]; [discriminate H |]).
      by apply elem_of_nil in H.
  - split; [| split].
    + intros uid. destruct (truthy_string uid') eqn:E.
      * split.
        -- intros H. apply elem_of_cons in H as [H|H]; [discriminate H |].
           apply elem_of_cons in H as [H|H]; [discriminate H |].
           apply list_elem_of_singleton in H. injection H as ->.
           split; [done |]. split; [done | by apply Htruthy].
        -- intros (_ & [= ->] & _). right. right. left.
      * split.
        -- intros H. repeat (apply elem_of_cons in H as [H|H]; [discriminate H |]).
           by apply elem_of_nil in H.
        -- intros (_ & [= ->] & Hne). apply Htruthy in Hne. congruence.
    + split; [intros _; split; [done | by eexists] | intros _; right; left].
    + intros ms H. destruct (truthy_string uid');
        repeat (apply elem_of_cons in H as [H|H]; [discriminate H |]);
        by apply elem_of_nil in H.
  - split; [| split].
    + intros uid. split; [| by intros [[=] _]].
      intros H. repeat (apply elem_of_cons in H as [H|H]; [discriminate H |]).
      by apply elem_of_nil in H.
    + split; [| by intros [[=] _]].
      intros H. repeat (apply elem_of_cons in H as [H|H]; [discriminate H |]).
      by apply elem_of_nil in H.
    + intros ms H. repeat (apply elem_of_cons in H as [H|H]; [discriminate H |]).
      by apply elem_of_nil in H.
  - split; [| split].
    + intros uid. split; [| by intros (_ & [=] & _)].
      intros H. repeat (apply elem_of_cons in H as [H|H]; [discriminate H |]).
      by apply elem_of_nil in H.
    + split; [| by intros [_ [? [=]]]].
      intros H. repeat (apply elem_of_cons in H as [H|H]; [discriminate H |]).
      by apply elem_of_nil in H.
    + intros ms H. repeat (apply elem_of_cons in H as [H|H]; [discriminate H |]).
      by apply elem_of_nil in H.
Qed.

Lemma signIn_routes_iff_success_witness :
  HandleAuthNavigation "u-1" ∈ new_calls (signIn idp_accepts "ana@example.org" "s3cret!") initial.
Proof.
  apply (proj1 (signIn_routes_iff_success idp_accepts "ana@example.org" "s3cret!" initial)
           "u-1").
  split; [reflexivity |]. split; [reflexivity | discriminate].
Defined.

End AuthFurther.

